(** * TropyToTumblr: a shallow embedding of [src/TropyToTumblr/index.js]

    The plugin receives a JSON-LD export document from its host, collects the
    local photo paths and the tags of the exported items, and posts them to
    Tumblr in one signed multipart request.

    The embedding follows the JavaScript source function by function:
    - JavaScript values are a tree of plain data ([value]); objects are finite
      maps from property names to values;
    - a computation that may [throw] returns a [completion];
    - the methods of the class, which log through the host's logger and call
      the network, run in a small monad [M] that threads the trace of
      host-visible events and stops at the first exception;
    - the imported modules ([oauth-1.0a], [crypto], [JSON]) are an interface
      ([Runtime]); the file system, the network and the random choices of one
      call are a record ([World]). *)

From Stdlib Require Import ZArith Ascii String List Bool Lia.
From stdpp Require Import base option list strings pretty gmap fin_maps.

Local Set Warnings "-register-all".
Local Open Scope string_scope.
Local Open Scope Z_scope.

(** ** JavaScript values *)

(** Plain data, as the host hands it over: the payload is a tree, so two
    different positions of it never hold the same object (no aliasing).
    Numbers are integers of magnitude below 10^21, the range in which
    JavaScript prints a number in plain decimal. *)
Inductive value : Type :=
  | VUndefined
  | VNull
  | VBool (b : bool)
  | VNum (n : Z)
  | VStr (s : string)
  | VArr (elems : list value)
  | VObj (props : gmap string value).

(** An [Error] object: its [name] and its [message]. *)
Record js_error : Type := MkError { err_name : string; err_message : string }.

Definition Error (msg : string) : js_error := MkError "Error" msg.
Definition TypeError (msg : string) : js_error := MkError "TypeError" msg.

(** The outcome of evaluating a piece of code: a value, or an exception. *)
Inductive completion (A : Type) : Type :=
  | Normal (a : A)
  | Throw (e : js_error).
Arguments Normal {A} a.
Arguments Throw {A} e.

Definition cbind {A B} (c : completion A) (k : A -> completion B) : completion B :=
  match c with
  | Normal a => k a
  | Throw e => Throw e
  end.

(** [ToBoolean]: what [!v], [&&] and [||] test. *)
Definition truthy (v : value) : bool :=
  match v with
  | VUndefined | VNull => false
  | VBool b => b
  | VNum n => negb (n =? 0)
  | VStr s => negb (String.eqb s EmptyString)
  | VArr _ | VObj _ => true
  end.

Definition isArray (v : value) : bool :=
  match v with VArr _ => true | _ => false end.

Definition typeof_name (v : value) : string :=
  match v with VNull => "null" | _ => "undefined" end.

(** [v.k] and [v[k]], for the property names this program reads ([@graph],
    [photo], [tag], [path]): an own property of an object; [undefined] on a
    primitive or an array, whose prototypes have no such property; a
    [TypeError] on [null] and [undefined] (message as V8 words it). *)
Definition get_prop (v : value) (k : string) : completion value :=
  match v with
  | VUndefined | VNull =>
      Throw (TypeError ("Cannot read properties of " ++ typeof_name v
                          ++ " (reading '" ++ k ++ "')"))
  | VObj props => Normal (default VUndefined (props !! k))
  | _ => Normal VUndefined
  end.

(** [Array.prototype.join] on strings. *)
Definition join (sep : string) (parts : list string) : string :=
  match parts with
  | [] => EmptyString
  | p :: ps => fold_left (fun acc q => acc ++ sep ++ q) ps p
  end.

(** [Number::toString] in radix 10. *)
Definition Number_toString (n : Z) : string := pretty n.

(** [ToString], what a template literal and [join] apply to a value. A plain
    object prints as [[object Object]] through [Object.prototype.toString],
    unless it has an own property [toString]: a value of plain data is not
    callable and [Object.prototype.valueOf] gives back the object, so the
    conversion ends in a [TypeError] (message as V8 words it). An array
    prints as its elements joined by commas, [null] and [undefined]
    elements as the empty string; the first element that cannot be
    converted ends the conversion. *)
Fixpoint ToString (v : value) : completion string :=
  match v with
  | VUndefined => Normal "undefined"
  | VNull => Normal "null"
  | VBool true => Normal "true"
  | VBool false => Normal "false"
  | VNum n => Normal (Number_toString n)
  | VStr s => Normal s
  | VArr elems =>
      match
        (fix each (l : list value) : completion (list string) :=
           match l with
           | [] => Normal []
           | x :: l' =>
               match
                 match x with
                 | VUndefined | VNull => Normal EmptyString
                 | _ => ToString x
                 end
               with
               | Throw e => Throw e
               | Normal s =>
                   match each l' with
                   | Throw e => Throw e
                   | Normal rest => Normal (s :: rest)
                   end
               end
           end) elems
      with
      | Throw e => Throw e
      | Normal parts => Normal (join "," parts)
      end
  | VObj props =>
      match props !! "toString" with
      | Some _ => Throw (TypeError "Cannot convert object to primitive value")
      | None => Normal "[object Object]"
      end
  end.

(** The string of an element of an array that is being joined. *)
Definition element_string (x : value) : completion string :=
  match x with
  | VUndefined | VNull => Normal EmptyString
  | _ => ToString x
  end.

(** The strings of the elements, up to the first that cannot be converted. *)
Fixpoint element_strings (elems : list value) : completion (list string) :=
  match elems with
  | [] => Normal []
  | x :: rest =>
      cbind (element_string x) (fun s =>
      cbind (element_strings rest) (fun ss => Normal (s :: ss)))
  end.

(** [elems.join(sep)]. *)
Definition array_join (sep : string) (elems : list value) : completion string :=
  cbind (element_strings elems) (fun parts => Normal (join sep parts)).

(** [Error.prototype.toString], what a template literal prints for an error. *)
Definition error_toString (e : js_error) : string :=
  if String.eqb (err_name e) EmptyString then err_message e
  else if String.eqb (err_message e) EmptyString then err_name e
  else err_name e ++ ": " ++ err_message e.

(** ** The file system ([fs]) *)

(** Node's [getValidatedPath]: a path is a string without a NUL character;
    anything else is rejected with a [TypeError] (message abridged: Node adds
    what it received). Buffers, [URL] objects and plain objects that imitate
    one are not values of this model. *)
Definition has_nul (s : string) : bool :=
  existsb (Ascii.eqb Ascii.zero) (list_ascii_of_string s).

Definition getValidatedPath (p : value) : completion string :=
  match p with
  | VStr s =>
      if has_nul s
      then Throw (TypeError "The argument 'path' must be a string, Uint8Array, or URL without null bytes.")
      else Normal s
  | _ => Throw (TypeError "The 'path' argument must be of type string or an instance of Buffer or URL.")
  end.

(** ** Multipart forms ([form-data]) and HTTP ([node-fetch] v2) *)

Inductive part : Type :=
  | Field (name : string) (content : string)
  | FilePart (name : string) (path : string).

Record Request : Type := MkRequest {
  req_url : string;
  req_method : string;
  req_headers : gmap string string;
  req_body : list part
}.

(** A response: its status code and what [response.json()] settles to. *)
Record Response : Type := MkResponse {
  status : Z;
  json : completion value
}.

(** The getter [ok] of a node-fetch response. *)
Definition ok (r : Response) : bool := (200 <=? status r) && (status r <? 300).

(** ** Request signing ([oauth-1.0a]) *)

Record OAuthClient : Type := MkOAuth {
  consumer_key : value;
  consumer_secret : value;
  signature_method : string;
  hash_function : string -> string -> string
}.

Record RequestData : Type := MkRequestData {
  rd_url : string;
  rd_method : string;
  rd_data : gmap string value
}.

Record TokenObj : Type := MkToken { key : value; secret : value }.

(** The imported modules the plugin calls and does not define. [authorize]
    draws a nonce and a timestamp; they are arguments here. *)
Class Runtime : Type := {
  JSON_stringify : value -> string;
  hmac_sha1_base64 : string -> string -> string;
  OAuth_authorize : OAuthClient -> RequestData -> TokenObj -> string -> Z -> gmap string value;
  OAuth_toHeader : OAuthClient -> gmap string value -> gmap string string
}.

(** What one call finds outside the program: the files that exist, the random
    choices of the libraries, and the answer of the network. *)
Record World : Type := MkWorld {
  file_exists : string -> bool;
  nonce : string;
  timestamp : Z;
  boundary : string;
  fetch : Request -> completion Response
}.

(** [fs.existsSync]: validates the path and answers [false] when that fails. *)
Definition existsSync (w : World) (p : value) : bool :=
  match getValidatedPath p with
  | Normal s => file_exists w s
  | Throw _ => false
  end.

(** [fs.createReadStream]: validates the path; the file is opened later. *)
Definition createReadStream (p : value) : completion string := getValidatedPath p.

(** ** [Set]: insertion-ordered, compared with SameValueZero *)

(** Primitives are the same when equal; two objects of a tree-shaped payload
    are never the same object. *)
Definition same_value_zero (a b : value) : bool :=
  match a, b with
  | VUndefined, VUndefined => true
  | VNull, VNull => true
  | VBool x, VBool y => Bool.eqb x y
  | VNum x, VNum y => x =? y
  | VStr x, VStr y => String.eqb x y
  | _, _ => false
  end.

Definition set_has (s : list value) (v : value) : bool := existsb (same_value_zero v) s.

Definition set_add (s : list value) (v : value) : list value :=
  if set_has s v then s else (s ++ [v])%list.

(** ** Events and the monad of the methods *)

Inductive log_arg : Type :=
  | LVal (v : value)
  | LErr (e : js_error).

(** What a run does that can be seen from outside: the calls of the host's
    logger, the entry into the uploader, and the request sent. *)
Inductive event : Type :=
  | LogInfo (args : list log_arg)
  | LogError (args : list log_arg)
  | CallUploader (photoPaths : list value) (caption : string) (tags : list value)
  | Fetch (req : Request).

Definition M (A : Type) : Type := list event -> completion A * list event.

Definition ret {A} (a : A) : M A := fun tr => (Normal a, tr).
Definition throw {A} (e : js_error) : M A := fun tr => (Throw e, tr).
Definition bind {A B} (m : M A) (k : A -> M B) : M B :=
  fun tr => match m tr with
            | (Normal a, tr') => k a tr'
            | (Throw e, tr') => (Throw e, tr')
            end.
Definition emit (ev : event) : M unit := fun tr => (Normal tt, (tr ++ [ev])%list).
Definition lift {A} (c : completion A) : M A := fun tr => (c, tr).
Definition try_catch {A} (body : M A) (handler : js_error -> M A) : M A :=
  fun tr => match body tr with
            | (Normal a, tr') => (Normal a, tr')
            | (Throw e, tr') => handler e tr'
            end.

Declare Scope js_scope.
Delimit Scope js_scope with js.
Notation "x <- m ;; k" := (bind m (fun x => k))
  (at level 100, m at next level, right associativity) : js_scope.
Notation "m ;; k" := (bind m (fun _ => k))
  (at level 100, right associativity) : js_scope.
Notation "x <~ c ;; k" := (cbind c (fun x => k))
  (at level 100, c at next level, right associativity) : js_scope.
Local Open Scope js_scope.

Definition logger_info (args : list log_arg) : M unit := emit (LogInfo args).
Definition logger_error (args : list log_arg) : M unit := emit (LogError args).

(** Running a method from the empty trace. *)
Definition run {A} (m : M A) : completion A * list event := m [].

(** ** The plugin: [class TropyToTumblr] *)

(** The host's context; its logger is the one whose calls the trace records. *)
Record Logger : Type := MkLogger { logger_name : string }.
Record Context : Type := MkContext { logger : Logger }.

Record Plugin : Type := MkPlugin {
  options : gmap string value;
  context : Context;
  this_logger : Logger;
  blogName : value;
  consumerKey : value;
  consumerSecret : value;
  token : value;
  tokenSecret : value;
  oauth : OAuthClient
}.

(** [TropyToTumblr.defaults] (lines 171-177). *)
Definition defaults : gmap string value :=
  {[ "blogName" := VStr "YOUR_BLOG_NAME";
     "consumerKey" := VStr "YOUR_DEFAULT_CONSUMER_KEY";
     "consumerSecret" := VStr "YOUR_DEFAULT_CONSUMER_SECRET";
     "token" := VStr "YOUR_DEFAULT_TOKEN";
     "tokenSecret" := VStr "YOUR_DEFAULT_TOKEN_SECRET" ]}.

(** [{ ...a, ...b }]: the properties of [b] override those of [a]. *)
Definition spread (a b : gmap string value) : gmap string value := b ∪ a.

(** Reading a property of an object literal: [undefined] when it is absent. *)
Definition field (o : gmap string value) (k : string) : value :=
  default VUndefined (o !! k).

Definition double_quote : string := String (ascii_of_nat 34) EmptyString.

Section Methods.
Context `{Runtime}.

(** [constructor(options, context)] (lines 15-53). *)
Definition constructor (opts : gmap string value) (ctx : Context) : Plugin :=
  let merged := spread defaults opts in
  let consumerKey := field merged "consumerKey" in
  let consumerSecret := field merged "consumerSecret" in
  {| options := merged;
     context := ctx;
     this_logger := logger ctx;
     blogName := field merged "blogName";
     consumerKey := consumerKey;
     consumerSecret := consumerSecret;
     token := field merged "token";
     tokenSecret := field merged "tokenSecret";
     oauth := {| consumer_key := consumerKey;
                 consumer_secret := consumerSecret;
                 signature_method := "HMAC-SHA1";
                 hash_function := fun baseString key => hmac_sha1_base64 key baseString |} |}.

(** The inner loop of [export] (lines 78-82): [photoPaths.push(p.path)] for
    each photo whose path is truthy and exists. *)
Fixpoint photos_loop (w : World) (photos photoPaths : list value)
  : completion (list value) :=
  match photos with
  | [] => Normal photoPaths
  | p :: rest =>
      path <~ get_prop p "path";;
      photos_loop w rest
        (if truthy path && existsSync w path
         then (photoPaths ++ [path])%list else photoPaths)
  end.

(** [node.tag.forEach(tag => allTags.add(tag))] (line 86). *)
Definition tags_loop (tags allTags : list value) : list value :=
  fold_left set_add tags allTags.

(** The loop over the items (lines 75-88). *)
Fixpoint graph_loop (w : World) (graph photoPaths allTags : list value)
  : completion (list value * list value) :=
  match graph with
  | [] => Normal (photoPaths, allTags)
  | node :: rest =>
      photo <~ get_prop node "photo";;
      photoPaths' <~ match photo with
                     | VArr photos => photos_loop w photos photoPaths
                     | _ => Normal photoPaths
                     end;;
      tag <~ get_prop node "tag";;
      graph_loop w rest photoPaths'
        match tag with
        | VArr tags => tags_loop tags allTags
        | _ => allTags
        end
  end.

(** The URL of the blog's post endpoint (line 116): the template literal
    converts [this.blogName] to a string, which may throw. *)
Definition post_url (this : Plugin) : completion string :=
  name <~ ToString (blogName this);;
  Normal ("https://api.tumblr.com/v2/blog/" ++ name ++ ".tumblr.com/post").

(** [form.append('data[]', fs.createReadStream(filepath))] for each path
    (lines 130-132). *)
Fixpoint append_files (photoPaths : list value) (form : list part)
  : completion (list part) :=
  match photoPaths with
  | [] => Normal form
  | filepath :: rest =>
      stream <~ createReadStream filepath;;
      append_files rest (form ++ [FilePart "data[]" stream])%list
  end.

(** The multipart form (lines 119-132); [tags.join(',')] may throw. *)
Definition build_form (photoPaths : list value) (caption : string) (tags : list value)
  : completion (list part) :=
  let form := [Field "type" "photo"; Field "caption" caption] in
  form <~ (if (0 <? length tags)%nat
           then joined <~ array_join "," tags;;
                Normal (form ++ [Field "tags" joined])%list
           else Normal form);;
  append_files photoPaths form.

(** [form.getHeaders()]. *)
Definition form_getHeaders (w : World) : gmap string string :=
  {[ "content-type" := "multipart/form-data; boundary=" ++ boundary w ]}.

(** What is signed (line 135). *)
Definition requestData (url : string) : RequestData :=
  {| rd_url := url; rd_method := "POST"; rd_data := ∅ |}.

(** The OAuth headers (lines 136-139). *)
Definition oauthHeaders (this : Plugin) (w : World) (url : string) : gmap string string :=
  let tokenObj := {| key := token this; secret := tokenSecret this |} in
  OAuth_toHeader (oauth this)
    (OAuth_authorize (oauth this) (requestData url) tokenObj (nonce w) (timestamp w)).

(** [{ ...oauthHeaders, ...form.getHeaders() }] (line 140). *)
Definition fetchHeaders (this : Plugin) (w : World) (url : string) : gmap string string :=
  form_getHeaders w ∪ oauthHeaders this w url.

(** The request handed to [fetch] (lines 143-147). *)
Definition upload_request (this : Plugin) (w : World) (url : string) (form : list part)
  : Request :=
  {| req_url := url; req_method := "POST";
     req_headers := fetchHeaders this w url; req_body := form |}.

Definition do_fetch (w : World) (req : Request) : M Response :=
  emit (Fetch req);; lift (fetch w req).

(** [async postPhotosToTumblr(photoPaths, caption, tags = [])]
    (lines 115-164). *)
Definition postPhotosToTumblr (this : Plugin) (w : World)
    (photoPaths : list value) (caption : string) (tags : list value) : M value :=
  emit (CallUploader photoPaths caption tags);;
  url <- lift (post_url this);;
  form <- lift (build_form photoPaths caption tags);;
  response <- do_fetch w (upload_request this w url form);;
  parsed <- try_catch (lift (json response))
              (fun parseErr =>
                 throw (Error ("Tumblr response is not valid JSON: "
                                 ++ error_toString parseErr)));;
  if negb (ok response)
  then throw (Error ("Tumblr API error (status=" ++ Number_toString (status response)
                       ++ "): " ++ JSON_stringify parsed))
  else ret parsed.

(** The message of the first log line of an upload (lines 98-101): the
    template literal converts [this.blogName] to a string, which may throw. *)
Definition posting_message (this : Plugin) (photoPaths : list value) : completion string :=
  name <~ ToString (blogName this);;
  Normal ("Posting " ++ Number_toString (Z.of_nat (length photoPaths))
            ++ " photo(s) to Tumblr blog " ++ double_quote ++ name
            ++ double_quote ++ " with tags:").

(** [err.message || err] (line 107). *)
Definition message_or_error (err : js_error) : log_arg :=
  if truthy (VStr (err_message err)) then LVal (VStr (err_message err)) else LErr err.

Definition no_items : M unit :=
  logger_info [LVal (VStr "No items found in the Tropy export data.")].

(** [async export(data)] (lines 63-109). *)
Definition export (this : Plugin) (w : World) (data : value) : M unit :=
  logger_info [LVal (VStr "TropyToTumblr.export() received data:"); LVal data];;
  if negb (truthy data) then no_items
  else
    graph <- lift (get_prop data "@graph");;
    match graph with
    | VArr [] => no_items
    | VArr nodes =>
        collected <- lift (graph_loop w nodes [] []);;
        let '(photoPaths, allTags) := collected in
        if (length photoPaths =? 0)%nat
        then logger_info [LVal (VStr "No local photos found among the selected items.")]
        else
          let tagArray := allTags in
          message <- lift (posting_message this photoPaths);;
          logger_info [LVal (VStr message); LVal (VArr tagArray)];;
          try_catch
            (result <- postPhotosToTumblr this w photoPaths EmptyString tagArray;;
             logger_info [LVal (VStr "Posted to Tumblr successfully:"); LVal result])
            (fun err =>
               logger_error [LVal (VStr "Failed to post photos to Tumblr:");
                             message_or_error err])
    | _ => no_items
    end.

End Methods.

(** ** The payload, as the data model describes it *)

(** The items of the payload: the elements of its [@graph] list. *)
Definition items (data : value) : list value :=
  match data with
  | VObj props => match props !! "@graph" with Some (VArr nodes) => nodes | _ => [] end
  | _ => []
  end.

(** The photo entries and the tag entries of an item. *)
Definition photos_of (node : value) : list value :=
  match node with
  | VObj props => match props !! "photo" with Some (VArr photos) => photos | _ => [] end
  | _ => []
  end.

Definition tags_of (node : value) : list value :=
  match node with
  | VObj props => match props !! "tag" with Some (VArr tags) => tags | _ => [] end
  | _ => []
  end.

Definition photo_entries (data : value) : list value := flat_map photos_of (items data).
Definition tag_entries (data : value) : list value := flat_map tags_of (items data).

(** The path of a photo entry. *)
Definition path_of (p : value) : value :=
  match p with VObj props => field props "path" | _ => VUndefined end.

(** A path is kept when it is non-empty and the file exists. *)
Definition path_kept (w : World) (path : value) : bool := truthy path && existsSync w path.

Definition existing_photo_paths (w : World) (data : value) : list value :=
  filter (fun path => path_kept w path = true) (map path_of (photo_entries data)).

(** The tags an export collects: each tag entry once, in order of first
    appearance. *)
Definition collected_tags (data : value) : list value :=
  fold_left set_add (tag_entries data) [].

(** [null] and [undefined], whose properties cannot be read. *)
Definition nullish (v : value) : bool :=
  match v with VUndefined | VNull => true | _ => false end.

(** An item on which the loop body throws. *)
Definition node_throws (node : value) : bool :=
  nullish node || existsb nullish (photos_of node).

(** The values a [Set] compares by content. *)
Definition primitive (v : value) : bool :=
  match v with VArr _ | VObj _ => false | _ => true end.

(** [msg] contains [sub]. *)
Definition includes (msg sub : string) : Prop := exists pre post, msg = pre ++ sub ++ post.

(** The binary parts of a form. *)
Definition is_file (p : part) : bool :=
  match p with FilePart _ _ => true | Field _ _ => false end.

Definition field_named (name : string) (p : part) : bool :=
  match p with Field n _ => String.eqb n name | FilePart _ _ => false end.

(** The log lines of [export] that do not depend on the upload. *)
Definition received (data : value) : event :=
  LogInfo [LVal (VStr "TropyToTumblr.export() received data:"); LVal data].
Definition no_items_found : event :=
  LogInfo [LVal (VStr "No items found in the Tropy export data.")].
Definition no_local_photos : event :=
  LogInfo [LVal (VStr "No local photos found among the selected items.")].
Definition failed_to_post (err : js_error) : event :=
  LogError [LVal (VStr "Failed to post photos to Tumblr:"); message_or_error err].

(** The events of an upload attempt. *)
Definition is_upload (ev : event) : bool :=
  match ev with CallUploader _ _ _ | Fetch _ => true | _ => false end.

(** The log line before an upload, and the one after an upload that
    succeeded. *)
Definition posting (message : string) (tags : list value) : event :=
  LogInfo [LVal (VStr message); LVal (VArr tags)].
Definition posted (result : value) : event :=
  LogInfo [LVal (VStr "Posted to Tumblr successfully:"); LVal result].

(** The [tags] field of a form: there when there are tags, with the tags
    joined as [joined]. *)
Definition tags_field (tags : list value) (joined : string) : list part :=
  match tags with
  | [] => []
  | _ :: _ => [Field "tags" joined]
  end.

(** The form of an upload of the files [files]. *)
Definition form_of (caption : string) (tags : list value) (joined : string)
    (files : list string) : list part :=
  ([Field "type" "photo"; Field "caption" caption]
     ++ tags_field tags joined ++ map (FilePart "data[]") files)%list.

(** The log line that ends an export which sent [req], by what the network
    answered. *)
Definition outcome_line `{Runtime} (w : World) (req : Request) : event :=
  match fetch w req with
  | Throw err => failed_to_post err
  | Normal response =>
      match json response with
      | Throw parseErr =>
          LogError [LVal (VStr "Failed to post photos to Tumblr:");
                    LVal (VStr ("Tumblr response is not valid JSON: "
                                  ++ error_toString parseErr))]
      | Normal parsed =>
          if ok response then posted parsed
          else LogError [LVal (VStr "Failed to post photos to Tumblr:");
                         LVal (VStr ("Tumblr API error (status="
                                       ++ Number_toString (status response)
                                       ++ "): " ++ JSON_stringify parsed))]
      end
  end.

(** ** A simulated platform, for running the methods on examples *)

Module Sim.

(** A serializer for flat test bodies; keys of an object come in the order
    of the map. *)
Fixpoint stringify (v : value) : string :=
  match v with
  | VUndefined => "undefined"
  | VNull => "null"
  | VBool true => "true"
  | VBool false => "false"
  | VNum n => Number_toString n
  | VStr s => double_quote ++ s ++ double_quote
  | VArr elems => "[" ++ join "," (map stringify elems) ++ "]"
  | VObj props =>
      "{" ++ join "," (map (fun kv => double_quote ++ kv.1 ++ double_quote ++ ":" ++ kv.2)
                          (map_to_list (stringify <$> props))) ++ "}"
  end.

(** A stand-in for the keyed hash. *)
Definition hmac (key baseString : string) : string := "hmac(" ++ key ++ "," ++ baseString ++ ")".

(** The fields [authorize] fills in, with the request's own parameters
    part of the signed base string. *)
Definition authorize (c : OAuthClient) (r : RequestData) (t : TokenObj)
    (nonce : string) (timestamp : Z) : gmap string value :=
  let oauth_data : gmap string value :=
    {[ "oauth_consumer_key" := consumer_key c;
       "oauth_nonce" := VStr nonce;
       "oauth_signature_method" := VStr (signature_method c);
       "oauth_timestamp" := VNum timestamp;
       "oauth_version" := VStr "1.0";
       "oauth_token" := key t ]} in
  let baseString := rd_method r ++ "&" ++ rd_url r ++ "&"
                      ++ stringify (VObj (rd_data r ∪ oauth_data)) in
  let signingKey := stringify (consumer_secret c) ++ "&" ++ stringify (secret t) in
  <[ "oauth_signature" := VStr (hash_function c baseString signingKey) ]> oauth_data.

Definition toHeader (c : OAuthClient) (oauth_data : gmap string value) : gmap string string :=
  {[ "Authorization" := "OAuth " ++ stringify (VObj oauth_data) ]}.

#[export] Instance runtime : Runtime :=
  {| JSON_stringify := stringify;
     hmac_sha1_base64 := hmac;
     OAuth_authorize := authorize;
     OAuth_toHeader := toHeader |}.

(** A world with the given files, whose network answers every request with
    the given status and body. *)
Definition world (files : list string) (code : Z) (body : completion value) : World :=
  {| file_exists := fun s => existsb (String.eqb s) files;
     nonce := "kllo9940pd9333jh";
     timestamp := 1318622958;
     boundary := "--------------------------515890814546601021194782";
     fetch := fun _ => Normal {| status := code; json := body |} |}.

Definition network_down : js_error :=
  MkError "FetchError"
    "request to https://api.tumblr.com failed, reason: getaddrinfo ENOTFOUND api.tumblr.com".

(** A world whose network is down. *)
Definition offline (files : list string) : World :=
  {| file_exists := fun s => existsb (String.eqb s) files;
     nonce := "kllo9940pd9333jh";
     timestamp := 1318622958;
     boundary := "--------------------------515890814546601021194782";
     fetch := fun _ => Throw network_down |}.

Definition ctx : Context := {| logger := {| logger_name := "tropy" |} |}.

Definition plugin : Plugin :=
  constructor {[ "blogName" := VStr "archive"; "token" := VStr "tok" ]} ctx.

Definition obj (l : list (string * value)) : value := VObj (list_to_map l).

(** One item with one photo and no tags. *)
Definition one_photo : value :=
  obj [("@graph", VArr [obj [("photo", VArr [obj [("path", VStr "/tmp/a.jpg")]])]])].

(** Two items with tags [a, b, a] and [b, c]. *)
Definition tagged : value :=
  obj [("@graph",
        VArr [obj [("photo", VArr [obj [("path", VStr "/tmp/a.jpg")];
                                    obj [("path", VStr "/tmp/missing.jpg")];
                                    obj [("path", VStr EmptyString)]]);
                   ("tag", VArr [VStr "a"; VStr "b"; VStr "a"])];
              obj [("tag", VArr [VStr "b"; VStr "c"])]])].

(** An item whose photo list holds [null]. *)
Definition null_photo : value :=
  obj [("@graph", VArr [obj [("photo", VArr [VNull])]])].

(** An item whose photo list holds a number and a string. *)
Definition primitive_photos : value :=
  obj [("@graph", VArr [obj [("photo", VArr [VNum 5; VStr "/tmp/a.jpg"])]])].

(** [one_photo] with a further property beside its [@graph]. *)
Definition one_photo_versioned : value :=
  obj [("@graph", VArr [obj [("photo", VArr [obj [("path", VStr "/tmp/a.jpg")]])]]);
       ("version", VStr "1.9.2")].

(** One item with one photo and two different tags. *)
Definition two_tags : value :=
  obj [("@graph", VArr [obj [("photo", VArr [obj [("path", VStr "/tmp/b.jpg")]]);
                             ("tag", VArr [VStr "harbour"; VStr "1923"])]])].

(** A value that cannot be converted to a string. *)
Definition unprintable : value := obj [("toString", VNum 1)].

(** One item with one photo and a tag that cannot be converted to a string. *)
Definition unprintable_tag : value :=
  obj [("@graph", VArr [obj [("photo", VArr [obj [("path", VStr "/tmp/a.jpg")]]);
                             ("tag", VArr [VStr "a"; unprintable])]])].

(** A plugin whose blog name cannot be converted to a string. *)
Definition unnamed_plugin : Plugin :=
  constructor {[ "blogName" := unprintable ]} ctx.

(** A payload without a [@graph]. *)
Definition no_graph : value := obj [("version", VStr "1.0")].

Definition disk : list string := ["/tmp/a.jpg"; "/tmp/b.jpg"].

Definition accepted : value := obj [("meta", obj [("status", VNum 201)])].
Definition rejected : value := obj [("meta", obj [("status", VNum 401)])].

Definition invalid_json : js_error :=
  MkError "FetchError"
    "invalid json response body at https://api.tumblr.com/v2/blog/archive.tumblr.com/post reason: Unexpected token < in JSON at position 0".

(** The request of an upload of [plugin] in the world [w] with body [form]. *)
Definition archive_url : string :=
  "https://api.tumblr.com/v2/blog/archive.tumblr.com/post".

Definition request (w : World) (form : list part) : Request :=
  upload_request plugin w archive_url form.

(** The "Posting" line of [plugin] for one photo. *)
Definition posting_one : string :=
  "Posting 1 photo(s) to Tumblr blog " ++ double_quote ++ "archive" ++ double_quote
    ++ " with tags:".

End Sim.

(** * Properties *)

(** ** Reading properties *)

Lemma get_prop_nullish (v : value) (k : string) :
  nullish v = true -> exists e, get_prop v k = Throw e.
Proof. destruct v; simpl; intros Hn; try discriminate; eauto. Qed.

Lemma get_prop_path (p : value) :
  nullish p = false -> get_prop p "path" = Normal (path_of p).
Proof. destruct p; simpl; intros Hn; try discriminate; reflexivity. Qed.

Lemma get_prop_total (v : value) (k : string) :
  nullish v = false -> exists x, get_prop v k = Normal x.
Proof. destruct v; simpl; intros Hn; try discriminate; eauto. Qed.

Lemma get_prop_photo (node : value) :
  nullish node = false ->
  exists v, get_prop node "photo" = Normal v /\
            photos_of node = match v with VArr photos => photos | _ => [] end.
Proof.
  destruct node as [| | | | | |props]; simpl; intros Hn; try discriminate;
    try (eexists; split; reflexivity).
  unfold default. destruct (props !! "photo") as [v|]; simpl.
  - exists v. split; [reflexivity|]. destruct v; reflexivity.
  - exists VUndefined. split; reflexivity.
Qed.

Lemma get_prop_tag (node : value) :
  nullish node = false ->
  exists v, get_prop node "tag" = Normal v /\
            tags_of node = match v with VArr tags => tags | _ => [] end.
Proof.
  destruct node as [| | | | | |props]; simpl; intros Hn; try discriminate;
    try (eexists; split; reflexivity).
  unfold default. destruct (props !! "tag") as [v|]; simpl.
  - exists v. split; [reflexivity|]. destruct v; reflexivity.
  - exists VUndefined. split; reflexivity.
Qed.

(** A truthy payload's [@graph] can be read, and [items] is what the guard
    of [export] lets through. *)
Lemma get_prop_graph (data : value) :
  truthy data = true ->
  exists g, get_prop data "@graph" = Normal g /\
            items data = match g with VArr nodes => nodes | _ => [] end.
Proof.
  destruct data as [| | | | | |props]; simpl; intros Ht; try discriminate;
    try (eexists; split; reflexivity).
  unfold default. destruct (props !! "@graph") as [v|]; simpl.
  - exists v. split; [reflexivity|]. destruct v; reflexivity.
  - exists VUndefined. split; reflexivity.
Qed.

Lemma items_falsy (data : value) : truthy data = false -> items data = [].
Proof. destruct data; simpl; intros Ht; try discriminate; reflexivity. Qed.

(** ** The extraction loops *)

Section Extraction.
Context `{Runtime}.
Variable w : World.

Lemma photos_loop_throws (photos acc : list value) :
  existsb nullish photos = true -> exists e, photos_loop w photos acc = Throw e.
Proof.
  revert acc. induction photos as [|p rest IH]; intros acc Hex; [discriminate|].
  simpl in Hex. simpl. destruct (nullish p) eqn:Hp.
  - destruct (get_prop_nullish p "path" Hp) as [e ->]. simpl. eauto.
  - rewrite (get_prop_path p Hp). simpl. apply IH. exact Hex.
Qed.

Lemma photos_loop_returns (photos acc : list value) :
  existsb nullish photos = false ->
  photos_loop w photos acc
  = Normal (acc ++ filter (fun path => path_kept w path = true) (map path_of photos))%list.
Proof.
  revert acc. induction photos as [|p rest IH]; intros acc Hex; simpl.
  - rewrite app_nil_r. reflexivity.
  - simpl in Hex. apply orb_false_iff in Hex as [Hp Hrest].
    rewrite (get_prop_path p Hp). simpl. rewrite (IH _ Hrest).
    rewrite filter_cons. fold (path_kept w (path_of p)).
    destruct (path_kept w (path_of p)) eqn:Hk.
    + rewrite decide_True by reflexivity. rewrite <- app_assoc. reflexivity.
    + rewrite decide_False by discriminate. reflexivity.
Qed.

Lemma graph_loop_throws (nodes photoPaths allTags : list value) :
  existsb node_throws nodes = true ->
  exists e, graph_loop w nodes photoPaths allTags = Throw e.
Proof.
  revert photoPaths allTags.
  induction nodes as [|node rest IH]; intros photoPaths allTags Hex; [discriminate|].
  simpl in Hex. simpl. destruct (nullish node) eqn:Hn.
  - destruct (get_prop_nullish node "photo" Hn) as [e ->]. simpl. eauto.
  - destruct (get_prop_photo node Hn) as (v & -> & Hv).
    destruct (get_prop_tag node Hn) as (t & Ht & _).
    unfold node_throws in Hex at 1. rewrite Hn, Hv in Hex. simpl in Hex. simpl.
    destruct v as [| | | | |photos|]; simpl in *; rewrite ?Ht; simpl;
      try (apply IH; exact Hex).
    destruct (existsb nullish photos) eqn:Hph.
    + destruct (photos_loop_throws photos photoPaths Hph) as [e ->]. simpl. eauto.
    + rewrite (photos_loop_returns photos photoPaths Hph). simpl.
      apply IH. exact Hex.
Qed.

Lemma graph_loop_returns (nodes photoPaths allTags : list value) :
  existsb node_throws nodes = false ->
  graph_loop w nodes photoPaths allTags
  = Normal ((photoPaths ++ filter (fun path => path_kept w path = true)
                             (map path_of (flat_map photos_of nodes)))%list,
            fold_left set_add (flat_map tags_of nodes) allTags).
Proof.
  revert photoPaths allTags.
  induction nodes as [|node rest IH]; intros photoPaths allTags Hex; simpl.
  - rewrite app_nil_r. reflexivity.
  - simpl in Hex. apply orb_false_iff in Hex as [Hnode Hrest].
    unfold node_throws in Hnode. apply orb_false_iff in Hnode as [Hn Hph].
    destruct (get_prop_photo node Hn) as (v & -> & Hv).
    destruct (get_prop_tag node Hn) as (t & Ht & Htags).
    rewrite Hv in Hph. rewrite Hv, Htags. simpl.
    rewrite map_app, filter_app, fold_left_app, app_assoc.
    destruct v as [| | | | |photos|]; simpl; rewrite ?Ht; simpl;
      rewrite ?app_nil_r;
      try (rewrite IH by exact Hrest; destruct t; reflexivity).
    rewrite (photos_loop_returns photos photoPaths Hph). simpl.
    rewrite IH by exact Hrest. rewrite <- app_assoc. destruct t; reflexivity.
Qed.

End Extraction.

(** ** The runs of the two methods *)

Lemma items_cons (data node : value) (rest : list value) :
  items data = node :: rest ->
  truthy data = true /\ get_prop data "@graph" = Normal (VArr (node :: rest)).
Proof.
  destruct data as [| | | | | |props]; simpl; try discriminate.
  unfold default. destruct (props !! "@graph") as [[| | | | |nodes|]|]; simpl;
    try discriminate.
  intros ->. split; reflexivity.
Qed.

Ltac unfold_M :=
  unfold run, bind, try_catch, lift, throw, ret, logger_info, logger_error,
    no_items, do_fetch, emit in *.

(** ** Conversion to a string *)

Lemma ToString_VArr (elems : list value) : ToString (VArr elems) = array_join "," elems.
Proof.
  unfold array_join. cbn [ToString].
  enough (Heach : (fix each (l : list value) : completion (list string) :=
                     match l with
                     | [] => Normal []
                     | x :: l' =>
                         match
                           match x with
                           | VUndefined | VNull => Normal EmptyString
                           | _ => ToString x
                           end
                         with
                         | Throw e => Throw e
                         | Normal s =>
                             match each l' with
                             | Throw e => Throw e
                             | Normal rest => Normal (s :: rest)
                             end
                         end
                     end) elems = element_strings elems).
  { rewrite Heach. reflexivity. }
  induction elems as [|x rest IH]; [reflexivity|].
  cbn [element_strings]. rewrite IH. unfold element_string, cbind.
  destruct x; reflexivity.
Qed.

(** An induction on values that descends into the elements of arrays. *)
Lemma value_array_ind (P : value -> Prop)
    (step : forall v, match v with VArr elems => Forall P elems | _ => True end -> P v)
    (v : value) : P v.
Proof.
  revert v. fix IH 1. intros v. apply step.
  destruct v as [| | | | |elems|]; try exact I.
  induction elems as [|x rest IHrest]; constructor; [apply IH | exact IHrest].
Qed.

(** A conversion that fails fails with a [TypeError]. *)
Lemma ToString_TypeError (v : value) (e : js_error) :
  ToString v = Throw e -> err_name e = "TypeError".
Proof.
  revert e. induction v as [v IH] using value_array_ind. intros e.
  destruct v as [| |[|]| | |elems|props]; try discriminate.
  - rewrite ToString_VArr. unfold array_join.
    induction IH as [|x rest Hx _ IHrest]; [discriminate|].
    cbn [element_strings]. unfold element_string at 1.
    destruct (match x with VUndefined | VNull => Normal EmptyString | _ => ToString x end)
      as [sx|ex] eqn:Hsx; cbn [cbind].
    + destruct (element_strings rest) as [ss|es]; cbn [cbind]; [discriminate|].
      intros He. apply IHrest. cbn [cbind]. exact He.
    + intros He. injection He as <-. destruct x; try discriminate; apply Hx; exact Hsx.
  - cbn [ToString]. destruct (props !! "toString"); [|discriminate].
    intros He. injection He as <-. reflexivity.
Qed.


(** The two template literals convert the blog name, and nothing else. *)
Lemma post_url_Normal (this : Plugin) (url : string) :
  post_url this = Normal url <->
  exists name, ToString (blogName this) = Normal name /\
               url = "https://api.tumblr.com/v2/blog/" ++ name ++ ".tumblr.com/post".
Proof.
  unfold post_url. destruct (ToString (blogName this)) as [name|e]; cbn [cbind]; split.
  - intros Hu. injection Hu as <-. eauto.
  - intros (name' & Hn & ->). injection Hn as ->. reflexivity.
  - discriminate.
  - intros (name' & Hn & _). discriminate.
Qed.

Lemma posting_message_Normal (this : Plugin) (photoPaths : list value) (message : string) :
  posting_message this photoPaths = Normal message <->
  exists name, ToString (blogName this) = Normal name /\
               message = "Posting " ++ Number_toString (Z.of_nat (length photoPaths))
                           ++ " photo(s) to Tumblr blog " ++ double_quote ++ name
                           ++ double_quote ++ " with tags:".
Proof.
  unfold posting_message. destruct (ToString (blogName this)) as [name|e]; cbn [cbind];
    split.
  - intros Hm. injection Hm as <-. eauto.
  - intros (name' & Hn & ->). injection Hn as ->. reflexivity.
  - discriminate.
  - intros (name' & Hn & _). discriminate.
Qed.

Lemma posting_message_Throw (this : Plugin) (photoPaths : list value) (e : js_error) :
  posting_message this photoPaths = Throw e <-> ToString (blogName this) = Throw e.
Proof.
  unfold posting_message. destruct (ToString (blogName this)) as [name|e']; cbn [cbind];
    split; congruence.
Qed.

Section Runs.
Context `{Runtime}.
Variables (this : Plugin) (w : World).

(** The uploader only adds to the trace it is given. *)
Lemma postPhotosToTumblr_frame (photoPaths : list value) (caption : string)
    (tags : list value) (tr : list event) :
  postPhotosToTumblr this w photoPaths caption tags tr
  = ((run (postPhotosToTumblr this w photoPaths caption tags)).1,
     (tr ++ (run (postPhotosToTumblr this w photoPaths caption tags)).2)%list).
Proof.
  unfold postPhotosToTumblr. unfold_M.
  destruct (post_url this) as [url|e]; simpl; [|reflexivity].
  destruct (build_form photoPaths caption tags) as [form|e]; simpl; [|reflexivity].
  destruct (fetch w _) as [response|e]; simpl;
    [|rewrite <- app_assoc; reflexivity].
  destruct (json response) as [parsed|e]; simpl;
    [|rewrite <- app_assoc; reflexivity].
  destruct (ok response); simpl; rewrite <- app_assoc; reflexivity.
Qed.

(** A run of the uploader, case by case. *)
Lemma postPhotosToTumblr_url_throws photoPaths caption tags e :
  post_url this = Throw e ->
  run (postPhotosToTumblr this w photoPaths caption tags)
  = (Throw e, [CallUploader photoPaths caption tags]).
Proof. intros Hu. unfold postPhotosToTumblr. unfold_M. rewrite Hu. reflexivity. Qed.

Lemma postPhotosToTumblr_form_throws photoPaths caption tags url e :
  post_url this = Normal url ->
  build_form photoPaths caption tags = Throw e ->
  run (postPhotosToTumblr this w photoPaths caption tags)
  = (Throw e, [CallUploader photoPaths caption tags]).
Proof.
  intros Hu Hf. unfold postPhotosToTumblr. unfold_M. rewrite Hu. simpl.
  rewrite Hf. reflexivity.
Qed.

Lemma postPhotosToTumblr_fetch_throws photoPaths caption tags url form e :
  post_url this = Normal url ->
  build_form photoPaths caption tags = Normal form ->
  fetch w (upload_request this w url form) = Throw e ->
  run (postPhotosToTumblr this w photoPaths caption tags)
  = (Throw e,
     [CallUploader photoPaths caption tags; Fetch (upload_request this w url form)]).
Proof.
  intros Hu Hf Hn. unfold postPhotosToTumblr. unfold_M. rewrite Hu. simpl.
  rewrite Hf. simpl. rewrite Hn. reflexivity.
Qed.

Lemma postPhotosToTumblr_response photoPaths caption tags url form response :
  post_url this = Normal url ->
  build_form photoPaths caption tags = Normal form ->
  fetch w (upload_request this w url form) = Normal response ->
  run (postPhotosToTumblr this w photoPaths caption tags)
  = (match json response with
     | Throw parseErr =>
         Throw (Error ("Tumblr response is not valid JSON: " ++ error_toString parseErr))
     | Normal parsed =>
         if ok response then Normal parsed
         else Throw (Error ("Tumblr API error (status=" ++ Number_toString (status response)
                              ++ "): " ++ JSON_stringify parsed))
     end,
     [CallUploader photoPaths caption tags; Fetch (upload_request this w url form)]).
Proof.
  intros Hu Hf Hn. unfold postPhotosToTumblr. unfold_M. rewrite Hu. simpl.
  rewrite Hf. simpl. rewrite Hn. simpl.
  destruct (json response) as [parsed|e]; simpl; [|reflexivity].
  destruct (ok response); reflexivity.
Qed.

(** A run of [export], case by case. *)
Lemma export_no_items (data : value) :
  items data = [] ->
  run (export this w data) = (Normal tt, [received data; no_items_found]).
Proof.
  intros Hi. unfold export. unfold_M. simpl.
  destruct (truthy data) eqn:Ht; simpl; [|reflexivity].
  destruct (get_prop_graph data Ht) as (g & -> & Hg). rewrite Hi in Hg.
  destruct g as [| | | | |[|node rest]|]; simpl; try reflexivity. discriminate.
Qed.

Lemma export_extraction_throws (data : value) (e : js_error) :
  items data <> [] ->
  graph_loop w (items data) [] [] = Throw e ->
  run (export this w data) = (Throw e, [received data]).
Proof.
  intros Hi Hg. destruct (items data) as [|node rest] eqn:Hitems; [congruence|].
  destruct (items_cons _ _ _ Hitems) as [Ht Hgraph].
  unfold export. unfold_M. simpl. rewrite Ht, Hgraph. simpl.
  change (cbind (get_prop node "photo") _) with (graph_loop w (node :: rest) [] []).
  rewrite Hg. reflexivity.
Qed.

Lemma export_no_photos (data : value) (allTags : list value) :
  items data <> [] ->
  graph_loop w (items data) [] [] = Normal ([], allTags) ->
  run (export this w data) = (Normal tt, [received data; no_local_photos]).
Proof.
  intros Hi Hg. destruct (items data) as [|node rest] eqn:Hitems; [congruence|].
  destruct (items_cons _ _ _ Hitems) as [Ht Hgraph].
  unfold export. unfold_M. simpl. rewrite Ht, Hgraph. simpl.
  change (cbind (get_prop node "photo") _) with (graph_loop w (node :: rest) [] []).
  rewrite Hg. reflexivity.
Qed.

(** The "Posting" line is built outside the [try]: when the blog name cannot
    be converted, [export] throws before anything is posted. *)
Lemma export_message_throws (data : value) (photoPaths allTags : list value)
    (e : js_error) :
  items data <> [] ->
  graph_loop w (items data) [] [] = Normal (photoPaths, allTags) ->
  photoPaths <> [] ->
  posting_message this photoPaths = Throw e ->
  run (export this w data) = (Throw e, [received data]).
Proof.
  intros Hi Hg Hne Hm. destruct (items data) as [|node rest] eqn:Hitems; [congruence|].
  destruct (items_cons _ _ _ Hitems) as [Ht Hgraph].
  unfold export. unfold bind at 1 2. unfold logger_info at 1, emit, lift. simpl.
  rewrite Ht, Hgraph. simpl.
  change (cbind (get_prop node "photo") _) with (graph_loop w (node :: rest) [] []).
  rewrite Hg. destruct photoPaths as [|p ps]; [congruence|].
  cbn beta iota delta [length Nat.eqb app]. unfold bind at 1. rewrite Hm. reflexivity.
Qed.

Lemma export_uploads (data : value) (photoPaths allTags : list value) (message : string) :
  items data <> [] ->
  graph_loop w (items data) [] [] = Normal (photoPaths, allTags) ->
  photoPaths <> [] ->
  posting_message this photoPaths = Normal message ->
  run (export this w data)
  = (Normal tt,
     ([received data;
       LogInfo [LVal (VStr message); LVal (VArr allTags)]]
        ++ (run (postPhotosToTumblr this w photoPaths EmptyString allTags)).2
        ++ [match (run (postPhotosToTumblr this w photoPaths EmptyString allTags)).1 with
            | Normal result =>
                LogInfo [LVal (VStr "Posted to Tumblr successfully:"); LVal result]
            | Throw err => failed_to_post err
            end])%list).
Proof.
  intros Hi Hg Hne Hm. destruct (items data) as [|node rest] eqn:Hitems; [congruence|].
  destruct (items_cons _ _ _ Hitems) as [Ht Hgraph].
  unfold export. unfold bind at 1 2. unfold logger_info at 1, emit, lift. simpl.
  rewrite Ht, Hgraph. simpl.
  change (cbind (get_prop node "photo") _) with (graph_loop w (node :: rest) [] []).
  rewrite Hg. destruct photoPaths as [|p ps]; [congruence|].
  cbn beta iota delta [length Nat.eqb app]. unfold bind at 1. rewrite Hm.
  unfold run at 1.
  cbv beta iota delta [try_catch bind logger_info logger_error emit failed_to_post].
  cbn beta iota delta [length Nat.eqb app].
  rewrite (postPhotosToTumblr_frame _ _ _ [_; _]).
  destruct (run (postPhotosToTumblr this w (p :: ps) EmptyString allTags)) as [[result|err] evs];
    simpl; reflexivity.
Qed.

End Runs.

Section Traces.
Context `{Runtime}.
Variables (this : Plugin) (w : World).

(** The trace of an upload: the entry into the uploader, then at most the
    request. *)
Lemma postPhotosToTumblr_trace (photoPaths : list value) (caption : string)
    (tags : list value) :
  exists rest,
    (run (postPhotosToTumblr this w photoPaths caption tags)).2
    = CallUploader photoPaths caption tags :: rest /\
    forall ev, ev ∈ rest -> exists req, ev = Fetch req.
Proof.
  destruct (post_url this) as [url|e] eqn:Hu.
  2: { rewrite (postPhotosToTumblr_url_throws this w _ _ _ _ Hu). simpl.
       exists []. split; [reflexivity|]. intros ev Hev. inversion Hev. }
  destruct (build_form photoPaths caption tags) as [form|e] eqn:Hf.
  - destruct (fetch w (upload_request this w url form)) as [response|e] eqn:Hn.
    + rewrite (postPhotosToTumblr_response this w _ _ _ _ _ _ Hu Hf Hn). simpl.
      eexists. split; [reflexivity|]. intros ev Hev.
      apply list_elem_of_singleton in Hev. eauto.
    + rewrite (postPhotosToTumblr_fetch_throws this w _ _ _ _ _ _ Hu Hf Hn). simpl.
      eexists. split; [reflexivity|]. intros ev Hev.
      apply list_elem_of_singleton in Hev. eauto.
  - rewrite (postPhotosToTumblr_form_throws this w _ _ _ _ _ Hu Hf). simpl.
    exists []. split; [reflexivity|]. intros ev Hev. inversion Hev.
Qed.

(** What the loop collects when no item throws. *)
Lemma graph_loop_collects (data : value) :
  existsb node_throws (items data) = false ->
  graph_loop w (items data) [] []
  = Normal (existing_photo_paths w data, collected_tags data).
Proof. intros Hok. rewrite (graph_loop_returns w _ [] [] Hok). reflexivity. Qed.

(** Every entry into the uploader during an export has the collected paths,
    the empty caption and the collected tags as its arguments. *)
Lemma export_calls (data : value) (P : list value) (c : string) (T : list value) :
  CallUploader P c T ∈ (run (export this w data)).2 ->
  items data <> [] /\ existsb node_throws (items data) = false /\
  P = existing_photo_paths w data /\ P <> [] /\
  c = EmptyString /\ T = collected_tags data.
Proof.
  intros Hin. destruct (items data) as [|node rest] eqn:Hitems.
  - rewrite (export_no_items this w data Hitems) in Hin. simpl in Hin.
    apply elem_of_cons in Hin as [Hin|Hin]; [discriminate|].
    apply list_elem_of_singleton in Hin. discriminate.
  - assert (Hne : items data <> []) by (rewrite Hitems; discriminate).
    rewrite <- Hitems in *. clear Hitems node rest.
    destruct (existsb node_throws (items data)) eqn:Hthrows.
    + destruct (graph_loop_throws w _ [] [] Hthrows) as [e He].
      rewrite (export_extraction_throws this w data e Hne He) in Hin. simpl in Hin.
      apply list_elem_of_singleton in Hin. discriminate.
    + pose proof (graph_loop_collects data Hthrows) as Hg.
      destruct (existing_photo_paths w data) as [|p ps] eqn:Hpaths.
      * rewrite (export_no_photos this w data _ Hne Hg) in Hin. simpl in Hin.
        apply elem_of_cons in Hin as [Hin|Hin]; [discriminate|].
        apply list_elem_of_singleton in Hin. discriminate.
      * assert (Hps : p :: ps <> []) by discriminate.
        destruct (posting_message this (p :: ps)) as [message|e] eqn:Hm.
        2: { rewrite (export_message_throws this w data _ _ e Hne Hg Hps Hm) in Hin.
             simpl in Hin. apply list_elem_of_singleton in Hin. discriminate. }
        rewrite (export_uploads this w data _ _ _ Hne Hg Hps Hm) in Hin.
        destruct (postPhotosToTumblr_trace (p :: ps) EmptyString (collected_tags data))
          as (evs & Htr & Hevs).
        cbn [snd] in Hin. rewrite Htr in Hin. cbn [app] in Hin.
        apply elem_of_cons in Hin as [Hin|Hin]; [discriminate|].
        apply elem_of_cons in Hin as [Hin|Hin]; [discriminate|].
        apply elem_of_cons in Hin as [Hin|Hin].
        { injection Hin as -> -> ->. repeat split; try reflexivity; assumption. }
        apply elem_of_app in Hin as [Hin|Hin].
        { destruct (Hevs _ Hin) as [req Hreq]. discriminate. }
        apply list_elem_of_singleton in Hin.
        destruct (run (postPhotosToTumblr this w (p :: ps) EmptyString (collected_tags data))).1;
          discriminate.
Qed.


End Traces.

(** ** The exception of the extraction *)

Lemma get_prop_TypeError (v : value) (k : string) (e : js_error) :
  get_prop v k = Throw e -> err_name e = "TypeError".
Proof. destruct v; simpl; intros He; try discriminate; injection He as <-; reflexivity. Qed.

Lemma photos_loop_TypeError (w : World) (photos acc : list value) (e : js_error) :
  photos_loop w photos acc = Throw e -> err_name e = "TypeError".
Proof.
  revert acc. induction photos as [|p rest IH]; intros acc; simpl; [discriminate|].
  destruct (get_prop p "path") as [path|e'] eqn:Hp; simpl.
  - apply IH.
  - intros He. injection He as <-. exact (get_prop_TypeError _ _ _ Hp).
Qed.

Lemma graph_loop_TypeError (w : World) (nodes photoPaths allTags : list value)
    (e : js_error) :
  graph_loop w nodes photoPaths allTags = Throw e -> err_name e = "TypeError".
Proof.
  revert photoPaths allTags.
  induction nodes as [|node rest IH]; intros photoPaths allTags; simpl; [discriminate|].
  destruct (get_prop node "photo") as [photo|e'] eqn:Hphoto; simpl.
  2: { intros He. injection He as <-. exact (get_prop_TypeError _ _ _ Hphoto). }
  assert (Htag : forall P, cbind (get_prop node "tag")
                             (fun tag => graph_loop w rest P
                                           match tag with
                                           | VArr tags => tags_loop tags allTags
                                           | _ => allTags
                                           end) = Throw e ->
                           err_name e = "TypeError").
  { intros P. destruct (get_prop node "tag") as [tag|e'] eqn:Ht; simpl.
    - apply IH.
    - intros He. injection He as <-. exact (get_prop_TypeError _ _ _ Ht). }
  destruct photo as [| | | | |photos|]; simpl; try apply Htag.
  destruct (photos_loop w photos photoPaths) as [P|e'] eqn:Hloop; simpl; [apply Htag|].
  intros He. injection He as <-. exact (photos_loop_TypeError _ _ _ _ Hloop).
Qed.

(** ** The export hook *)

(** A kept path is a non-empty string that names an existing file. *)
Lemma path_kept_iff (w : World) (path : value) :
  path_kept w path = true <->
  exists s, path = VStr s /\ s <> EmptyString /\ has_nul s = false /\ file_exists w s = true.
Proof.
  unfold path_kept, existsSync, getValidatedPath. split.
  - intros Hk. apply andb_true_iff in Hk as [Ht He].
    destruct path as [| | | |s| |]; try discriminate. exists s.
    simpl in Ht. apply negb_true_iff, String.eqb_neq in Ht.
    destruct (has_nul s); [discriminate|]. auto.
  - intros (s & -> & Hs & Hnul & Hex). rewrite Hnul, Hex. simpl.
    apply String.eqb_neq in Hs. rewrite Hs. reflexivity.
Qed.

Section ExportHook.
Context `{Runtime}.
Variables (this : Plugin) (w : World).

(** C2. A payload that is missing, or whose [@graph] is absent, not a list
    or an empty list, is nothing to export: the hook logs the payload and
    "No items found", returns without error, has no photo entry to collect a
    path from, and neither enters the uploader nor sends a request. *)
Theorem export_nothing_to_export (data : value) :
  (data = VUndefined \/ data = VNull \/
   exists g, get_prop data "@graph" = Normal g /\
             (g = VUndefined \/ isArray g = false \/ g = VArr [])) ->
  run (export this w data) = (Normal tt, [received data; no_items_found]) /\
  existing_photo_paths w data = [] /\
  (forall ev, ev ∈ (run (export this w data)).2 -> is_upload ev = false).
Proof.
  intros Hdata.
  assert (Hitems : items data = []).
  { destruct Hdata as [-> | [-> | (g & Hg & Hcase)]]; try reflexivity.
    destruct (truthy data) eqn:Ht; [|apply items_falsy; exact Ht].
    destruct (get_prop_graph data Ht) as (g' & Hg' & ->).
    rewrite Hg in Hg'. injection Hg' as <-.
    destruct Hcase as [-> | [Harr | ->]]; try reflexivity.
    destruct g; try reflexivity. discriminate. }
  rewrite (export_no_items this w data Hitems). split; [reflexivity|]. split.
  - unfold existing_photo_paths, photo_entries. rewrite Hitems. reflexivity.
  - simpl. intros ev Hev.
    apply elem_of_cons in Hev as [-> | Hev]; [reflexivity|].
    apply list_elem_of_singleton in Hev as ->. reflexivity.
Qed.

(** C1. The uploader is entered only with the collected path list, which is
    then non-empty, so some photo entry has a non-empty path that passed the
    existence check; the list the loop collects holds the path of a photo
    entry exactly when that path is non-empty and exists, in order; and when
    that list is empty the export stops after the log line "No local photos
    found", without entering the uploader. *)
Theorem export_uploads_only_existing_photos (data : value) :
  (forall P c T, CallUploader P c T ∈ (run (export this w data)).2 ->
     P = existing_photo_paths w data /\
     exists p, p ∈ photo_entries data /\ path_kept w (path_of p) = true) /\
  (forall photoPaths allTags,
     graph_loop w (items data) [] [] = Normal (photoPaths, allTags) ->
     photoPaths = filter (fun path => path_kept w path = true)
                         (map path_of (photo_entries data)) /\
     (forall path, path ∈ photoPaths <->
        path_kept w path = true /\ exists p, path = path_of p /\ p ∈ photo_entries data)) /\
  (items data <> [] -> existsb node_throws (items data) = false ->
   existing_photo_paths w data = [] ->
   run (export this w data) = (Normal tt, [received data; no_local_photos]) /\
   (forall ev, ev ∈ (run (export this w data)).2 -> is_upload ev = false)).
Proof.
  split; [|split].
  - intros P c T Hin.
    destruct (export_calls this w data P c T Hin) as (_ & _ & HP & Hne & _).
    split; [exact HP|]. subst P.
    destruct (existing_photo_paths w data) as [|path rest] eqn:Hpaths; [congruence|].
    assert (Hpath : path ∈ existing_photo_paths w data) by (rewrite Hpaths; left).
    unfold existing_photo_paths in Hpath.
    apply list_elem_of_filter in Hpath as [Hk Hpath].
    apply list_elem_of_fmap in Hpath as (p & -> & Hp). eauto.
  - intros photoPaths allTags Hg.
    assert (Hok : existsb node_throws (items data) = false).
    { destruct (existsb node_throws (items data)) eqn:Hthrows; [|reflexivity].
      destruct (graph_loop_throws w _ [] [] Hthrows) as [e He]. congruence. }
    rewrite (graph_loop_collects w data Hok) in Hg. injection Hg as <- <-.
    split; [reflexivity|]. intros path. unfold existing_photo_paths.
    rewrite list_elem_of_filter. setoid_rewrite list_elem_of_fmap. reflexivity.
  - intros Hne Hok Hempty.
    pose proof (graph_loop_collects w data Hok) as Hg. rewrite Hempty in Hg.
    rewrite (export_no_photos this w data _ Hne Hg). split; [reflexivity|].
    simpl. intros ev Hev.
    apply elem_of_cons in Hev as [-> | Hev]; [reflexivity|].
    apply list_elem_of_singleton in Hev as ->. reflexivity.
Qed.

(** C9. The try/catch of the hook covers the upload only. On a payload
    with a non-empty item graph in which some item is [null] or [undefined],
    or has a [photo] list with a [null] or [undefined] entry, the property
    access of the extraction loop throws a [TypeError], and that exception
    leaves [export] uncaught: the run ends with it after the first log line,
    with nothing logged as an error and no upload. *)
Theorem export_extraction_errors_escape (data : value) :
  existsb node_throws (items data) = true ->
  items data <> [] /\
  exists e, graph_loop w (items data) [] [] = Throw e /\
            err_name e = "TypeError" /\
            run (export this w data) = (Throw e, [received data]).
Proof.
  intros Hthrows.
  assert (Hne : items data <> []).
  { intros Hnil. rewrite Hnil in Hthrows. discriminate. }
  split; [exact Hne|].
  destruct (graph_loop_throws w _ [] [] Hthrows) as [e He].
  exists e. split; [exact He|]. split.
  - exact (graph_loop_TypeError _ _ _ _ _ He).
  - apply export_extraction_throws; [exact Hne | exact He].
Qed.

(** C5. Whatever the uploader throws once the hook has logged the "Posting"
    line and called it (a response that does not parse, a rejection by the
    platform, a failure of the transport, a path it cannot open) is caught by
    the hook: [export] returns normally, and the last thing it does is to log
    the failure through [logger.error]. *)
Theorem export_catches_upload_failures (data : value) (photoPaths allTags : list value)
    (message : string) (err : js_error) :
  items data <> [] ->
  graph_loop w (items data) [] [] = Normal (photoPaths, allTags) ->
  photoPaths <> [] ->
  posting_message this photoPaths = Normal message ->
  (run (postPhotosToTumblr this w photoPaths EmptyString allTags)).1 = Throw err ->
  (run (export this w data)).1 = Normal tt /\
  last (run (export this w data)).2 = Some (failed_to_post err) /\
  (run (export this w data)).2
  = ([received data;
      LogInfo [LVal (VStr message); LVal (VArr allTags)]]
       ++ (run (postPhotosToTumblr this w photoPaths EmptyString allTags)).2
       ++ [LogError [LVal (VStr "Failed to post photos to Tumblr:");
                     message_or_error err]])%list.
Proof.
  intros Hne Hg Hps Hm Hthrow.
  rewrite (export_uploads this w data _ _ _ Hne Hg Hps Hm). rewrite Hthrow.
  cbn [fst snd]. split; [reflexivity|]. split; [|reflexivity].
  rewrite app_assoc. apply last_snoc.
Qed.

End ExportHook.

(** ** The uploader *)

Lemma includes_intro (pre sub post : string) : includes (pre ++ sub ++ post) sub.
Proof. exists pre, post. reflexivity. Qed.

Lemma string_app_nil_r (s : string) : s ++ EmptyString = s.
Proof.
  induction s as [|a s IH]; [reflexivity|].
  change (String a (s ++ EmptyString) = String a s). rewrite IH. reflexivity.
Qed.

Lemma string_app_assoc (a b c : string) : (a ++ b) ++ c = a ++ b ++ c.
Proof.
  induction a as [|x a IH]; [reflexivity|].
  change (String x ((a ++ b) ++ c) = String x (a ++ b ++ c)). rewrite IH. reflexivity.
Qed.

Lemma includes_suffix (pre sub : string) : includes (pre ++ sub) sub.
Proof. exists pre, EmptyString. rewrite string_app_nil_r. reflexivity. Qed.

Lemma append_files_valid (photoPaths : list value) (files : list string) (form : list part) :
  Forall2 (fun p f => getValidatedPath p = Normal f) photoPaths files ->
  append_files photoPaths form = Normal (form ++ map (FilePart "data[]") files)%list.
Proof.
  intros Hall. revert form.
  induction Hall as [|p f ps fs Hp _ IH]; intros form; simpl.
  - rewrite app_nil_r. reflexivity.
  - unfold createReadStream. rewrite Hp. simpl. rewrite IH, <- app_assoc. reflexivity.
Qed.

Lemma is_file_FilePart (files : list string) :
  filter (fun p => is_file p = true) (map (FilePart "data[]") files)
  = map (FilePart "data[]") files.
Proof.
  induction files as [|f fs IH]; [reflexivity|]. simpl.
  rewrite filter_cons, decide_True by reflexivity. rewrite IH. reflexivity.
Qed.

Lemma no_field_in_files (name : string) (files : list string) :
  existsb (field_named name) (map (FilePart "data[]") files) = false.
Proof. induction files as [|f fs IH]; [reflexivity|]. simpl. exact IH. Qed.



Lemma build_form_valid (photoPaths : list value) (caption : string) (tags : list value)
    (joined : string) (files : list string) :
  array_join "," tags = Normal joined ->
  Forall2 (fun p f => getValidatedPath p = Normal f) photoPaths files ->
  build_form photoPaths caption tags = Normal (form_of caption tags joined files).
Proof.
  intros Hj Hall. unfold build_form, form_of, tags_field.
  destruct tags as [|t ts]; cbn [length Nat.ltb Nat.leb]; rewrite ?Hj; cbn [cbind];
    rewrite (append_files_valid _ _ _ Hall), <- ?app_assoc; reflexivity.
Qed.


Lemma build_form_join_throws (photoPaths : list value) (caption : string)
    (tags : list value) (e : js_error) :
  array_join "," tags = Throw e ->
  build_form photoPaths caption tags = Throw e.
Proof.
  intros Hj. unfold build_form. destruct tags as [|t ts]; [discriminate|].
  cbn [length Nat.ltb Nat.leb]. rewrite Hj. reflexivity.
Qed.

(** The shape of a form. *)
Lemma form_of_files (caption : string) (tags : list value) (joined : string)
    (files : list string) :
  filter (fun p => is_file p = true) (form_of caption tags joined files)
  = map (FilePart "data[]") files.
Proof.
  unfold form_of, tags_field. destruct tags; simpl;
    rewrite !filter_cons, !decide_False by discriminate; apply is_file_FilePart.
Qed.

Lemma form_of_tags (caption : string) (tags : list value) (joined : string)
    (files : list string) :
  existsb (field_named "tags") (form_of caption tags joined files) = true <-> tags <> [].
Proof.
  unfold form_of, tags_field. destruct tags as [|t ts]; simpl;
    rewrite ?no_field_in_files; split; congruence.
Qed.

Section Requests.
Context `{Runtime}.
Variables (this : Plugin) (w : World).

(** The request of an upload: there is one exactly when the URL and the
    form could be built, and it is made of them. *)
Lemma postPhotosToTumblr_fetches (photoPaths : list value)
    (caption : string) (tags : list value) (req : Request) :
  Fetch req ∈ (run (postPhotosToTumblr this w photoPaths caption tags)).2 ->
  post_url this = Normal (req_url req) /\
  build_form photoPaths caption tags = Normal (req_body req) /\
  req = upload_request this w (req_url req) (req_body req).
Proof.
  intros Hin. destruct (post_url this) as [url|e] eqn:Hu.
  2: { rewrite (postPhotosToTumblr_url_throws this w _ _ _ _ Hu) in Hin. simpl in Hin.
       apply list_elem_of_singleton in Hin. discriminate. }
  destruct (build_form photoPaths caption tags) as [form|e] eqn:Hf.
  - assert (Hreq : Fetch req ∈ [CallUploader photoPaths caption tags;
                                Fetch (upload_request this w url form)]).
    { destruct (fetch w (upload_request this w url form))
        as [response|e] eqn:Hn.
      - rewrite (postPhotosToTumblr_response this w _ _ _ _ _ _ Hu Hf Hn) in Hin.
        exact Hin.
      - rewrite (postPhotosToTumblr_fetch_throws this w _ _ _ _ _ _ Hu Hf Hn) in Hin.
        exact Hin. }
    apply elem_of_cons in Hreq as [Hreq|Hreq]; [discriminate|].
    apply list_elem_of_singleton in Hreq. injection Hreq as ->. auto.
  - rewrite (postPhotosToTumblr_form_throws this w _ _ _ _ _ Hu Hf) in Hin. simpl in Hin.
    apply list_elem_of_singleton in Hin. discriminate.
Qed.



End Requests.

Section Uploader.
Context `{Runtime}.
Variables (this : Plugin) (w : World).

(** C3. When the body of the platform's response parses as JSON, the
    uploader returns the parsed body unchanged if the status is ok, and
    otherwise throws an error whose message contains the status code and the
    serialized body; it returns normally exactly when the status is ok. *)
Theorem uploader_parsed_response (photoPaths : list value) (caption : string)
    (tags : list value) (url : string) (form : list part) (response : Response)
    (parsed : value) :
  post_url this = Normal url ->
  build_form photoPaths caption tags = Normal form ->
  fetch w (upload_request this w url form) = Normal response ->
  json response = Normal parsed ->
  (ok response = true ->
   (run (postPhotosToTumblr this w photoPaths caption tags)).1 = Normal parsed) /\
  (ok response = false ->
   exists msg,
     (run (postPhotosToTumblr this w photoPaths caption tags)).1 = Throw (Error msg) /\
     msg = "Tumblr API error (status=" ++ Number_toString (status response) ++ "): "
             ++ JSON_stringify parsed /\
     includes msg (Number_toString (status response)) /\
     includes msg (JSON_stringify parsed)) /\
  ((exists v, (run (postPhotosToTumblr this w photoPaths caption tags)).1 = Normal v)
   <-> ok response = true).
Proof.
  intros Hu Hf Hn Hj.
  rewrite (postPhotosToTumblr_response this w _ _ _ _ _ _ Hu Hf Hn), Hj. cbn [fst].
  destruct (ok response); (split; [|split]).
  - reflexivity.
  - discriminate.
  - split; [reflexivity | eauto].
  - discriminate.
  - intros _. eexists. split; [reflexivity|]. split; [reflexivity|]. split.
    + apply includes_intro.
    + rewrite <- !string_app_assoc. apply includes_suffix.
  - split; [intros [v Hv]; discriminate | discriminate].
Qed.

(** C4. When the body of the platform's response does not parse as JSON,
    the uploader throws an error whose message says that the response is not
    valid JSON and ends with the parse error as printed, whatever the status
    code is: the status is looked at only after the body has parsed. *)
Theorem uploader_unparseable_response (photoPaths : list value) (caption : string)
    (tags : list value) (url : string) (form : list part) (response : Response)
    (parseErr : js_error) :
  post_url this = Normal url ->
  build_form photoPaths caption tags = Normal form ->
  fetch w (upload_request this w url form) = Normal response ->
  json response = Throw parseErr ->
  exists msg,
    run (postPhotosToTumblr this w photoPaths caption tags)
    = (Throw (Error msg),
       [CallUploader photoPaths caption tags; Fetch (upload_request this w url form)]) /\
    msg = "Tumblr response is not valid JSON: " ++ error_toString parseErr /\
    includes msg "not valid JSON" /\
    includes msg (error_toString parseErr).
Proof.
  intros Hu Hf Hn Hj.
  rewrite (postPhotosToTumblr_response this w _ _ _ _ _ _ Hu Hf Hn), Hj.
  eexists. split; [reflexivity|]. split; [reflexivity|]. split.
  - exists "Tumblr response is ", (": " ++ error_toString parseErr). reflexivity.
  - apply includes_suffix.
Qed.


End Uploader.

(** ** Request signing *)

Section Signing.
Context `{Runtime}.
Variable this : Plugin.

Lemma fetchHeaders_Authorization (w : World) (url : string) :
  fetchHeaders this w url !! "Authorization" = oauthHeaders this w url !! "Authorization".
Proof.
  unfold fetchHeaders, form_getHeaders. apply lookup_union_r.
  apply lookup_singleton_ne. discriminate.
Qed.

(** C10. What the uploader signs is the method, the URL and an empty
    parameter set: two uploads of the same plugin that draw the same nonce
    and timestamp sign the same request data and send the same
    [Authorization] header, whatever their photo paths, captions and tags
    are. *)
Theorem oauth_signature_ignores_body (w1 w2 : World)
    (photoPaths1 photoPaths2 : list value) (caption1 caption2 : string)
    (tags1 tags2 : list value) (req1 req2 : Request) :
  nonce w1 = nonce w2 -> timestamp w1 = timestamp w2 ->
  Fetch req1 ∈ (run (postPhotosToTumblr this w1 photoPaths1 caption1 tags1)).2 ->
  Fetch req2 ∈ (run (postPhotosToTumblr this w2 photoPaths2 caption2 tags2)).2 ->
  post_url this = Normal (req_url req1) /\
  requestData (req_url req1)
  = {| rd_url := req_url req1; rd_method := "POST"; rd_data := ∅ |} /\
  req_url req1 = req_url req2 /\
  oauthHeaders this w1 (req_url req1)
  = OAuth_toHeader (oauth this)
      (OAuth_authorize (oauth this) (requestData (req_url req1))
         {| key := token this; secret := tokenSecret this |} (nonce w1) (timestamp w1)) /\
  oauthHeaders this w1 (req_url req1) = oauthHeaders this w2 (req_url req2) /\
  req_headers req1 !! "Authorization"
  = oauthHeaders this w1 (req_url req1) !! "Authorization" /\
  req_headers req1 !! "Authorization" = req_headers req2 !! "Authorization".
Proof.
  intros Hnonce Htime Hin1 Hin2.
  destruct (postPhotosToTumblr_fetches this w1 _ _ _ _ Hin1) as (Hu1 & _ & Hr1).
  destruct (postPhotosToTumblr_fetches this w2 _ _ _ _ Hin2) as (Hu2 & _ & Hr2).
  assert (Hurl : req_url req1 = req_url req2) by congruence.
  assert (Hsame : oauthHeaders this w1 (req_url req1) = oauthHeaders this w2 (req_url req2)).
  { unfold oauthHeaders. rewrite Hnonce, Htime, Hurl. reflexivity. }
  assert (Hh1 : req_headers req1 = fetchHeaders this w1 (req_url req1)).
  { rewrite Hr1 at 1. reflexivity. }
  assert (Hh2 : req_headers req2 = fetchHeaders this w2 (req_url req2)).
  { rewrite Hr2 at 1. reflexivity. }
  split; [exact Hu1|]. split; [reflexivity|]. split; [exact Hurl|].
  split; [reflexivity|]. split; [exact Hsame|].
  rewrite Hh1, Hh2, !fetchHeaders_Authorization, Hsame. split; reflexivity.
Qed.

End Signing.

(** ** The tag set *)

Lemma same_value_zero_eq (a b : value) : same_value_zero a b = true -> a = b.
Proof.
  destruct a, b; simpl; intros Heq; try discriminate; try reflexivity.
  - apply Bool.eqb_prop in Heq. congruence.
  - apply Z.eqb_eq in Heq. congruence.
  - apply String.eqb_eq in Heq. congruence.
Qed.

Lemma same_value_zero_refl (v : value) : primitive v = true -> same_value_zero v v = true.
Proof.
  destruct v; simpl; intros Hp; try discriminate; try reflexivity.
  - apply Bool.eqb_reflx.
  - apply Z.eqb_refl.
  - apply String.eqb_refl.
Qed.

Lemma set_has_elem (s : list value) (v : value) : set_has s v = true -> v ∈ s.
Proof.
  unfold set_has. intros Hhas. apply existsb_exists in Hhas as (x & Hx & Heq).
  apply same_value_zero_eq in Heq as ->. apply list_elem_of_In. exact Hx.
Qed.

Lemma set_has_primitive (s : list value) (v : value) :
  primitive v = true -> v ∈ s -> set_has s v = true.
Proof.
  intros Hp Hin. unfold set_has. apply existsb_exists. exists v.
  split; [apply list_elem_of_In; exact Hin | apply same_value_zero_refl; exact Hp].
Qed.

Lemma set_add_elem (s : list value) (v x : value) :
  x ∈ set_add s v <-> x ∈ s \/ x = v.
Proof.
  unfold set_add. destruct (set_has s v) eqn:Hhas.
  - split; [auto|]. intros [Hx | ->]; [exact Hx|]. apply set_has_elem. exact Hhas.
  - rewrite elem_of_app, list_elem_of_singleton. reflexivity.
Qed.

Lemma tags_loop_elem (tags s : list value) (x : value) :
  x ∈ fold_left set_add tags s <-> x ∈ s \/ x ∈ tags.
Proof.
  revert s. induction tags as [|t ts IH]; intros s; simpl.
  - rewrite elem_of_nil. tauto.
  - rewrite IH, set_add_elem, elem_of_cons. tauto.
Qed.

Lemma set_add_NoDup (s : list value) (v : value) :
  NoDup (filter (fun x => primitive x = true) s) ->
  NoDup (filter (fun x => primitive x = true) (set_add s v)).
Proof.
  intros Hnd. unfold set_add. destruct (set_has s v) eqn:Hhas; [exact Hnd|].
  rewrite filter_app. apply NoDup_app. split; [exact Hnd|]. split.
  - intros x Hx Hxv. rewrite filter_cons in Hxv.
    destruct (decide (primitive v = true)) as [Hp|Hp]; [|inversion Hxv].
    apply list_elem_of_singleton in Hxv as ->.
    apply list_elem_of_filter in Hx as [_ Hx].
    rewrite (set_has_primitive s v Hp Hx) in Hhas. discriminate.
  - rewrite filter_cons. destruct (decide (primitive v = true)).
    + apply NoDup_singleton.
    + apply NoDup_nil_2.
Qed.

Lemma tags_loop_NoDup (tags s : list value) :
  NoDup (filter (fun x => primitive x = true) s) ->
  NoDup (filter (fun x => primitive x = true) (fold_left set_add tags s)).
Proof.
  revert s. induction tags as [|t ts IH]; intros s Hnd; simpl; [exact Hnd|].
  apply IH, set_add_NoDup, Hnd.
Qed.

(** A primitive of a list without repeated primitives is at one position. *)
Lemma primitive_once (l : list value) (v : value) :
  NoDup (filter (fun x => primitive x = true) l) -> primitive v = true -> v ∈ l ->
  exists l1 l2, l = (l1 ++ (v :: l2))%list /\ (v ∉ l1) /\ (v ∉ l2).
Proof.
  intros Hnd Hp Hin. apply list_elem_of_split in Hin as (l1 & l2 & ->).
  exists l1, l2. split; [reflexivity|].
  rewrite filter_app, filter_cons, decide_True in Hnd by exact Hp.
  apply NoDup_app in Hnd as (_ & Hdisj & Hnd2). apply NoDup_cons in Hnd2 as [Hnot2 _].
  split.
  - intros Hin1. apply (Hdisj v); [|left].
    apply list_elem_of_filter. split; [exact Hp | exact Hin1].
  - intros Hin2. apply Hnot2. apply list_elem_of_filter. split; [exact Hp | exact Hin2].
Qed.

Section Tags.
Context `{Runtime}.
Variables (this : Plugin) (w : World).

(** C6. The tags the uploader is entered with are the tag entries of all
    items with the repetitions removed: a value is among them exactly when
    it is a tag entry of some item, and every tag string (every primitive)
    among them is there exactly once. Items with tags [a, b, a] and [b, c]
    give [a, b, c]. *)
Theorem export_tags_deduplicated (data : value) (P : list value) (c : string)
    (T : list value) :
  CallUploader P c T ∈ (run (export this w data)).2 ->
  T = collected_tags data /\
  (forall v, v ∈ T <-> v ∈ tag_entries data) /\
  (forall s, VStr s ∈ tag_entries data ->
     exists l1 l2, T = (l1 ++ (VStr s :: l2))%list /\ (VStr s ∉ l1) /\ (VStr s ∉ l2)) /\
  NoDup (filter (fun x => primitive x = true) T) /\
  (tag_entries data = [VStr "a"; VStr "b"; VStr "a"; VStr "b"; VStr "c"] ->
   T = [VStr "a"; VStr "b"; VStr "c"]).
Proof.
  intros Hin. destruct (export_calls this w data P c T Hin) as (_ & _ & _ & _ & _ & ->).
  assert (Hnd : NoDup (filter (fun x => primitive x = true) (collected_tags data))).
  { apply tags_loop_NoDup. apply NoDup_nil_2. }
  assert (Hmem : forall v, v ∈ collected_tags data <-> v ∈ tag_entries data).
  { intros v. unfold collected_tags. rewrite tags_loop_elem, elem_of_nil. tauto. }
  split; [reflexivity|]. split; [exact Hmem|]. split; [|split; [exact Hnd|]].
  - intros s Hs. apply primitive_once; [exact Hnd | reflexivity | apply Hmem, Hs].
  - intros Htags. unfold collected_tags. rewrite Htags. reflexivity.
Qed.

End Tags.

(** ** Construction *)

Section Construction.
Context `{Runtime}.

(** C8. The options of a plugin are the defaults overridden key by key by
    the options of the user: a key the user gives has the user's value, any
    other key has its default, and each of the five fields of the plugin is
    the user's value when the key is present and its placeholder otherwise.
    The constructor checks nothing and always returns a plugin. *)
Theorem constructor_options_override_defaults (opts : gmap string value) (ctx : Context) :
  (forall k, options (constructor opts ctx) !! k
             = match opts !! k with Some v => Some v | None => defaults !! k end) /\
  blogName (constructor opts ctx) = default (VStr "YOUR_BLOG_NAME") (opts !! "blogName") /\
  consumerKey (constructor opts ctx)
  = default (VStr "YOUR_DEFAULT_CONSUMER_KEY") (opts !! "consumerKey") /\
  consumerSecret (constructor opts ctx)
  = default (VStr "YOUR_DEFAULT_CONSUMER_SECRET") (opts !! "consumerSecret") /\
  token (constructor opts ctx) = default (VStr "YOUR_DEFAULT_TOKEN") (opts !! "token") /\
  tokenSecret (constructor opts ctx)
  = default (VStr "YOUR_DEFAULT_TOKEN_SECRET") (opts !! "tokenSecret") /\
  consumer_key (oauth (constructor opts ctx)) = consumerKey (constructor opts ctx) /\
  consumer_secret (oauth (constructor opts ctx)) = consumerSecret (constructor opts ctx).
Proof.
  assert (Hmerge : forall k, spread defaults opts !! k
                             = match opts !! k with Some v => Some v | None => defaults !! k end).
  { intros k. unfold spread. rewrite lookup_union.
    destruct (opts !! k) as [v|]; destruct (defaults !! k); reflexivity. }
  split; [exact Hmerge|].
  unfold constructor, field; cbn [blogName consumerKey consumerSecret token tokenSecret
                                   oauth consumer_key consumer_secret].
  rewrite !Hmerge.
  repeat split;
    match goal with
    | |- context [opts !! ?k] => destruct (opts !! k); reflexivity
    end.
Qed.

End Construction.

(** * Runs on the simulated platform *)

Import Sim.

Example ToString_samples :
  ToString (VNum 401) = Normal "401" /\ ToString (VNum (-5)) = Normal "-5" /\
  ToString (VArr [VStr "a"; VNull; VNum 2]) = Normal "a,,2" /\
  ToString (obj [("name", VStr "x")]) = Normal "[object Object]" /\
  ToString unprintable = Throw (TypeError "Cannot convert object to primitive value") /\
  ToString (VArr [VStr "a"; unprintable])
  = Throw (TypeError "Cannot convert object to primitive value") /\
  array_join "," [VStr "a"; VStr "b"; VStr "c"] = Normal "a,b,c".
Proof. repeat split; vm_compute; reflexivity. Qed.

(** An accepted upload: the body of the response is logged as it came. *)
Example export_tagged_accepted :
  run (export plugin (world disk 201 (Normal accepted)) tagged)
  = (Normal tt,
     [received tagged;
      LogInfo [LVal (VStr posting_one);
               LVal (VArr [VStr "a"; VStr "b"; VStr "c"])];
      CallUploader [VStr "/tmp/a.jpg"] EmptyString [VStr "a"; VStr "b"; VStr "c"];
      Fetch (request (world disk 201 (Normal accepted))
               [Field "type" "photo"; Field "caption" EmptyString;
                Field "tags" "a,b,c"; FilePart "data[]" "/tmp/a.jpg"]);
      LogInfo [LVal (VStr "Posted to Tumblr successfully:"); LVal accepted]]).
Proof. vm_compute. reflexivity. Qed.

(** A photo list with entries that are numbers or strings does not make the
    extraction throw: such an entry has no path and is skipped, and [export]
    returns normally. *)
Example export_skips_primitive_photo_entries :
  photo_entries primitive_photos = [VNum 5; VStr "/tmp/a.jpg"] /\
  run (export plugin (world disk 201 (Normal accepted)) primitive_photos)
  = (Normal tt, [received primitive_photos; no_local_photos]) /\
  ~ (exists e, (run (export plugin (world disk 201 (Normal accepted)) primitive_photos)).1
               = Throw e).
Proof.
  split; [vm_compute; reflexivity|]. split; [vm_compute; reflexivity|].
  intros [e He]. vm_compute in He. discriminate.
Qed.

Lemma export_nothing_to_export_witness :
  run (export plugin (world disk 201 (Normal accepted)) no_graph)
  = (Normal tt, [received no_graph; no_items_found]) /\
  existing_photo_paths (world disk 201 (Normal accepted)) no_graph = [] /\
  (forall ev, ev ∈ (run (export plugin (world disk 201 (Normal accepted)) no_graph)).2 ->
              is_upload ev = false).
Proof.
  apply (export_nothing_to_export plugin (world disk 201 (Normal accepted)) no_graph).
  right. right. exists VUndefined. split; [vm_compute; reflexivity | left; reflexivity].
Defined.

Lemma export_uploads_only_existing_photos_witness :
  run (export plugin (world [] 201 (Normal accepted)) one_photo)
  = (Normal tt, [received one_photo; no_local_photos]) /\
  (forall ev, ev ∈ (run (export plugin (world [] 201 (Normal accepted)) one_photo)).2 ->
              is_upload ev = false).
Proof.
  apply (export_uploads_only_existing_photos plugin (world [] 201 (Normal accepted)) one_photo).
  - vm_compute. discriminate.
  - vm_compute. reflexivity.
  - vm_compute. reflexivity.
Defined.

Lemma export_extraction_errors_escape_witness :
  items null_photo <> [] /\
  exists e, graph_loop (world disk 201 (Normal accepted)) (items null_photo) [] [] = Throw e /\
            err_name e = "TypeError" /\
            run (export plugin (world disk 201 (Normal accepted)) null_photo)
            = (Throw e, [received null_photo]).
Proof.
  apply (export_extraction_errors_escape plugin (world disk 201 (Normal accepted)) null_photo).
  vm_compute. reflexivity.
Defined.

Lemma export_catches_upload_failures_witness :
  (run (export plugin (offline disk) one_photo)).1 = Normal tt /\
  last (run (export plugin (offline disk) one_photo)).2
  = Some (failed_to_post network_down).
Proof.
  destruct (export_catches_upload_failures plugin (offline disk) one_photo
              [VStr "/tmp/a.jpg"] [] posting_one network_down)
    as (Hret & Hlast & _).
  - vm_compute. discriminate.
  - vm_compute. reflexivity.
  - discriminate.
  - vm_compute. reflexivity.
  - vm_compute. reflexivity.
  - split; [exact Hret | exact Hlast].
Defined.

Lemma uploader_parsed_response_witness :
  exists msg,
    (run (postPhotosToTumblr plugin (world disk 401 (Normal rejected))
            [VStr "/tmp/a.jpg"] EmptyString [])).1 = Throw (Error msg) /\
    msg = "Tumblr API error (status=" ++ "401" ++ "): " ++ JSON_stringify rejected /\
    includes msg "401" /\
    includes msg (JSON_stringify rejected).
Proof.
  destruct (uploader_parsed_response plugin (world disk 401 (Normal rejected))
              [VStr "/tmp/a.jpg"] EmptyString [] archive_url
              [Field "type" "photo"; Field "caption" EmptyString;
               FilePart "data[]" "/tmp/a.jpg"]
              {| status := 401; json := Normal rejected |} rejected)
    as (_ & Hfail & _).
  - vm_compute. reflexivity.
  - vm_compute. reflexivity.
  - reflexivity.
  - reflexivity.
  - exact (Hfail eq_refl).
Defined.

(** An accepted upload returns the parsed body unchanged. *)
Example uploader_returns_accepted_body :
  (run (postPhotosToTumblr plugin (world disk 200 (Normal accepted))
          [VStr "/tmp/a.jpg"] EmptyString [])).1 = Normal accepted.
Proof. vm_compute. reflexivity. Qed.

Lemma uploader_unparseable_response_witness :
  exists msg,
    run (postPhotosToTumblr plugin (world disk 200 (Throw invalid_json))
           [VStr "/tmp/a.jpg"] EmptyString [])
    = (Throw (Error msg),
       [CallUploader [VStr "/tmp/a.jpg"] EmptyString [];
        Fetch (request (world disk 200 (Throw invalid_json))
                 [Field "type" "photo"; Field "caption" EmptyString;
                  FilePart "data[]" "/tmp/a.jpg"])]) /\
    msg = "Tumblr response is not valid JSON: " ++ error_toString invalid_json /\
    includes msg "not valid JSON" /\
    includes msg (error_toString invalid_json).
Proof.
  apply (uploader_unparseable_response plugin (world disk 200 (Throw invalid_json))
           [VStr "/tmp/a.jpg"] EmptyString [] archive_url
           [Field "type" "photo"; Field "caption" EmptyString;
            FilePart "data[]" "/tmp/a.jpg"]
           {| status := 200; json := Throw invalid_json |} invalid_json).
  - vm_compute. reflexivity.
  - vm_compute. reflexivity.
  - reflexivity.
  - reflexivity.
Defined.


Lemma export_tags_deduplicated_witness :
  [VStr "a"; VStr "b"; VStr "c"] = collected_tags tagged /\
  (forall v, v ∈ [VStr "a"; VStr "b"; VStr "c"] <-> v ∈ tag_entries tagged) /\
  NoDup (filter (fun x => primitive x = true) [VStr "a"; VStr "b"; VStr "c"]).
Proof.
  destruct (export_tags_deduplicated plugin (world disk 201 (Normal accepted)) tagged
              [VStr "/tmp/a.jpg"] EmptyString [VStr "a"; VStr "b"; VStr "c"])
    as (Hset & Hmem & _ & Hnd & _).
  - vm_compute. apply list_elem_of_further, list_elem_of_further, list_elem_of_here.
  - split; [exact Hset|]. split; [exact Hmem | exact Hnd].
Defined.

Lemma oauth_signature_ignores_body_witness :
  let w := world disk 201 (Normal accepted) in
  let req1 := request w [Field "type" "photo"; Field "caption" EmptyString;
                         Field "tags" "a,b"; FilePart "data[]" "/tmp/a.jpg"] in
  let req2 := request w [Field "type" "photo"; Field "caption" "harbour";
                         FilePart "data[]" "/tmp/b.jpg"] in
  req_body req1 <> req_body req2 /\
  req_headers req1 !! "Authorization" = req_headers req2 !! "Authorization" /\
  rd_data (requestData (req_url req1)) = ∅.
Proof.
  intros w req1 req2.
  destruct (oauth_signature_ignores_body plugin w w
              [VStr "/tmp/a.jpg"] [VStr "/tmp/b.jpg"] EmptyString "harbour"
              [VStr "a"; VStr "b"] [] req1 req2)
    as (_ & Hdata & _ & _ & _ & _ & Hauth).
  - reflexivity.
  - reflexivity.
  - vm_compute. apply list_elem_of_further, list_elem_of_here.
  - vm_compute. apply list_elem_of_further, list_elem_of_here.
  - split; [discriminate|]. split; [exact Hauth|]. rewrite Hdata. reflexivity.
Defined.

(** * Further properties of the methods *)

(** ** The shape of a run of [export] *)

(** The paths that pass the check are the names of existing files. *)
Lemma kept_paths_files (w : World) (paths : list value) :
  (forall path, path ∈ paths -> path_kept w path = true) ->
  exists files,
    Forall2 (fun p f => p = VStr f /\ file_exists w f = true) paths files /\
    Forall2 (fun p f => getValidatedPath p = Normal f) paths files.
Proof.
  induction paths as [|p ps IH]; intros Hall.
  - exists []. split; constructor.
  - destruct IH as (fs & Hfs & Hvalid). { intros path Hin. apply Hall. right. exact Hin. }
    assert (Hp : path_kept w p = true) by (apply Hall; left).
    apply path_kept_iff in Hp as (s & -> & _ & Hnul & Hex).
    exists (s :: fs). split; constructor; auto. simpl. rewrite Hnul. reflexivity.
Qed.

Lemma existing_photo_paths_kept (w : World) (data path : value) :
  path ∈ existing_photo_paths w data -> path_kept w path = true.
Proof.
  unfold existing_photo_paths. intros Hin.
  apply list_elem_of_filter in Hin as [Hk _]. exact Hk.
Qed.

(** The four kinds of payload. *)
Lemma payload_cases (w : World) (data : value) :
  items data = [] \/
  (items data <> [] /\ existsb node_throws (items data) = true) \/
  (items data <> [] /\ existsb node_throws (items data) = false /\
   existing_photo_paths w data = []) \/
  (items data <> [] /\ existsb node_throws (items data) = false /\
   existing_photo_paths w data <> []).
Proof.
  destruct (items data) as [|node rest] eqn:Hitems; [left; reflexivity|].
  rewrite <- Hitems. assert (Hne : items data <> []) by (rewrite Hitems; discriminate).
  destruct (existsb node_throws (items data)); [right; left; auto|].
  destruct (existing_photo_paths w data) eqn:Hp.
  - right; right; left. auto.
  - right; right; right. repeat split; auto.
Qed.

(** What can happen once there are photos to post: the blog name cannot be
    converted; it can, and the tags cannot be joined; or both can. *)
Lemma upload_cases (this : Plugin) (photoPaths tags : list value) :
  (exists e, ToString (blogName this) = Throw e /\
             posting_message this photoPaths = Throw e) \/
  (exists message url e,
     posting_message this photoPaths = Normal message /\
     post_url this = Normal url /\ array_join "," tags = Throw e) \/
  (exists message url joined,
     posting_message this photoPaths = Normal message /\
     post_url this = Normal url /\ array_join "," tags = Normal joined).
Proof.
  destruct (ToString (blogName this)) as [name|e] eqn:Hn.
  - right.
    assert (Hm : exists message, posting_message this photoPaths = Normal message).
    { eexists. apply posting_message_Normal. eauto. }
    assert (Hu : exists url, post_url this = Normal url).
    { eexists. apply post_url_Normal. eauto. }
    destruct Hm as [message Hm], Hu as [url Hu].
    destruct (array_join "," tags) as [joined|e]; [right | left]; eauto 8.
  - left. exists e. split; [reflexivity|]. apply posting_message_Throw. exact Hn.
Qed.

Section Shapes.
Context `{Runtime}.
Variables (this : Plugin) (w : World).


(** The run of an upload whose URL and form can be built. *)
Lemma postPhotosToTumblr_run (photoPaths : list value) (caption : string)
    (tags : list value) (url : string) (form : list part) :
  post_url this = Normal url ->
  build_form photoPaths caption tags = Normal form ->
  (run (postPhotosToTumblr this w photoPaths caption tags)).2
  = [CallUploader photoPaths caption tags; Fetch (upload_request this w url form)] /\
  match (run (postPhotosToTumblr this w photoPaths caption tags)).1 with
  | Normal result => posted result
  | Throw err => failed_to_post err
  end = outcome_line w (upload_request this w url form).
Proof.
  intros Hu Hf. unfold outcome_line.
  destruct (fetch w (upload_request this w url form)) as [response|e] eqn:Hn.
  - rewrite (postPhotosToTumblr_response this w _ _ _ _ _ _ Hu Hf Hn). cbn [fst snd].
    split; [reflexivity|].
    destruct (json response) as [parsed|parseErr]; [|reflexivity].
    destruct (ok response); reflexivity.
  - rewrite (postPhotosToTumblr_fetch_throws this w _ _ _ _ _ _ Hu Hf Hn). cbn [fst snd].
    split; reflexivity.
Qed.

(** The run of an export that has photos to post and can build its request. *)
Lemma export_upload_run (data : value) (message url joined : string) :
  items data <> [] -> existsb node_throws (items data) = false ->
  existing_photo_paths w data <> [] ->
  posting_message this (existing_photo_paths w data) = Normal message ->
  post_url this = Normal url ->
  array_join "," (collected_tags data) = Normal joined ->
  exists files,
    Forall2 (fun p f => p = VStr f /\ file_exists w f = true)
      (existing_photo_paths w data) files /\
    run (export this w data)
    = (Normal tt,
       [received data;
        posting message (collected_tags data);
        CallUploader (existing_photo_paths w data) EmptyString (collected_tags data);
        Fetch (upload_request this w url
                 (form_of EmptyString (collected_tags data) joined files));
        outcome_line w (upload_request this w url
                          (form_of EmptyString (collected_tags data) joined files))]).
Proof.
  intros Hne Hok Hps Hm Hu Hj.
  destruct (kept_paths_files w (existing_photo_paths w data)) as (files & Hfiles & Hvalid).
  { intros path. apply existing_photo_paths_kept. }
  exists files. split; [exact Hfiles|].
  pose proof (build_form_valid _ EmptyString (collected_tags data) _ _ Hj Hvalid) as Hform.
  rewrite (export_uploads this w data _ _ _ Hne (graph_loop_collects w data Hok) Hps Hm).
  destruct (postPhotosToTumblr_run _ _ _ _ _ Hu Hform) as [-> <-]. reflexivity.
Qed.

(** The run of an export that has photos to post and whose tags cannot be
    joined: the uploader is entered, throws before any request, and the hook
    logs the failure. *)
Lemma export_join_throws (data : value) (message url : string) (e : js_error) :
  items data <> [] -> existsb node_throws (items data) = false ->
  existing_photo_paths w data <> [] ->
  posting_message this (existing_photo_paths w data) = Normal message ->
  post_url this = Normal url ->
  array_join "," (collected_tags data) = Throw e ->
  run (export this w data)
  = (Normal tt,
     [received data;
      posting message (collected_tags data);
      CallUploader (existing_photo_paths w data) EmptyString (collected_tags data);
      failed_to_post e]).
Proof.
  intros Hne Hok Hps Hm Hu Hj.
  rewrite (export_uploads this w data _ _ _ Hne (graph_loop_collects w data Hok) Hps Hm).
  rewrite (postPhotosToTumblr_form_throws this w _ _ _ _ _ Hu
             (build_form_join_throws _ _ _ _ Hj)).
  reflexivity.
Qed.

(** The run of an export that has photos to post and whose blog name cannot
    be converted. *)
Lemma export_name_throws (data : value) (e : js_error) :
  items data <> [] -> existsb node_throws (items data) = false ->
  existing_photo_paths w data <> [] ->
  posting_message this (existing_photo_paths w data) = Throw e ->
  run (export this w data) = (Throw e, [received data]).
Proof.
  intros Hne Hok Hps Hm.
  exact (export_message_throws this w data _ _ e Hne (graph_loop_collects w data Hok) Hps Hm).
Qed.


End Shapes.

(** ** What an export sends and what it logs *)

Section Outcomes.
Context `{Runtime}.
Variables (this : Plugin) (w : World).

Lemma outcome_line_is_log (req : Request) :
  (exists args, outcome_line w req = LogInfo args) \/
  (exists args, outcome_line w req = LogError args).
Proof.
  unfold outcome_line, failed_to_post, posted.
  destruct (fetch w req) as [response|e]; [|right; eauto].
  destruct (json response) as [parsed|e]; [|right; eauto].
  destruct (ok response); [left | right]; eauto.
Qed.

(** The request of an export, and the run it is part of. *)
Lemma export_fetches (data : value) (req : Request) :
  Fetch req ∈ (run (export this w data)).2 ->
  exists files joined message,
    Forall2 (fun p f => p = VStr f /\ file_exists w f = true)
      (existing_photo_paths w data) files /\
    array_join "," (collected_tags data) = Normal joined /\
    posting_message this (existing_photo_paths w data) = Normal message /\
    post_url this = Normal (req_url req) /\
    req = upload_request this w (req_url req)
            (form_of EmptyString (collected_tags data) joined files) /\
    run (export this w data)
    = (Normal tt,
       [received data;
        posting message (collected_tags data);
        CallUploader (existing_photo_paths w data) EmptyString (collected_tags data);
        Fetch req; outcome_line w req]).
Proof.
  intros Hin.
  destruct (payload_cases w data)
    as [Hnil | [[Hne Hthrows] | [(Hne & Hok & Hnone) | (Hne & Hok & Hps)]]].
  - rewrite (export_no_items this w data Hnil) in Hin. cbn [snd] in Hin.
    apply elem_of_cons in Hin as [Hin|Hin]; [discriminate|].
    apply list_elem_of_singleton in Hin. discriminate.
  - destruct (graph_loop_throws w _ [] [] Hthrows) as [e He].
    rewrite (export_extraction_throws this w data e Hne He) in Hin. cbn [snd] in Hin.
    apply list_elem_of_singleton in Hin. discriminate.
  - pose proof (graph_loop_collects w data Hok) as Hg. rewrite Hnone in Hg.
    rewrite (export_no_photos this w data _ Hne Hg) in Hin. cbn [snd] in Hin.
    apply elem_of_cons in Hin as [Hin|Hin]; [discriminate|].
    apply list_elem_of_singleton in Hin. discriminate.
  - destruct (upload_cases this (existing_photo_paths w data) (collected_tags data))
      as [(e & _ & Hm) | [(message & url & e & Hm & Hu & Hj)
                         | (message & url & joined & Hm & Hu & Hj)]].
    + rewrite (export_name_throws this w data e Hne Hok Hps Hm) in Hin. cbn [snd] in Hin.
      apply list_elem_of_singleton in Hin. discriminate.
    + rewrite (export_join_throws this w data message url e Hne Hok Hps Hm Hu Hj) in Hin.
      cbn [snd] in Hin.
      apply elem_of_cons in Hin as [Hin|Hin]; [discriminate|].
      apply elem_of_cons in Hin as [Hin|Hin]; [discriminate|].
      apply elem_of_cons in Hin as [Hin|Hin]; [discriminate|].
      apply list_elem_of_singleton in Hin. discriminate.
    + destruct (export_upload_run this w data message url joined Hne Hok Hps Hm Hu Hj)
        as (files & Hfiles & Hrun).
      exists files, joined, message. split; [exact Hfiles|]. split; [exact Hj|].
      split; [exact Hm|]. rewrite Hrun in Hin. cbn [snd] in Hin.
      apply elem_of_cons in Hin as [Hin|Hin]; [discriminate|].
      apply elem_of_cons in Hin as [Hin|Hin]; [discriminate|].
      apply elem_of_cons in Hin as [Hin|Hin]; [discriminate|].
      apply elem_of_cons in Hin as [Hin|Hin].
      * injection Hin as ->. split; [exact Hu|]. split; [reflexivity | exact Hrun].
      * apply list_elem_of_singleton in Hin.
        destruct (outcome_line_is_log
                    (upload_request this w url
                       (form_of EmptyString (collected_tags data) joined files)))
          as [[args Ha] | [args Ha]]; rewrite Ha in Hin; discriminate.
Qed.

(** X2. The request an export sends carries, after the two fields [type]
    and [caption] (empty), the collected tags joined by commas when there are
    any, and then one binary part for each photo entry of the payload whose
    path is non-empty and exists, in the order of the payload: every part
    names an existing file, and no other file is sent. *)
Theorem export_request_body (data : value) (req : Request) :
  Fetch req ∈ (run (export this w data)).2 ->
  exists files joined,
    Forall2 (fun p f => p = VStr f /\ file_exists w f = true)
      (existing_photo_paths w data) files /\
    array_join "," (collected_tags data) = Normal joined /\
    req_body req
    = ([Field "type" "photo"; Field "caption" EmptyString]
         ++ tags_field (collected_tags data) joined
         ++ map (FilePart "data[]") files)%list /\
    length (filter (fun p => is_file p = true) (req_body req))
    = length (existing_photo_paths w data).
Proof.
  intros Hin.
  destruct (export_fetches data req Hin) as (files & joined & _ & Hfiles & Hj & _ & _ & -> & _).
  exists files, joined. split; [exact Hfiles|]. split; [exact Hj|]. split; [reflexivity|].
  cbn [req_body upload_request]. rewrite form_of_files, length_map.
  symmetry. exact (Forall2_length _ _ _ Hfiles).
Qed.

(** X3. An export that sent a request returns normally, and its last log
    line tells what the network answered: an error line with the message of
    the transport error (or the error itself when its message is empty) when
    the request failed; an error line "Tumblr response is not valid JSON: ..."
    when the body did not parse; an error line "Tumblr API error
    (status=...): ..." when the body parsed and the status is not ok; the
    info line "Posted to Tumblr successfully:" with the parsed body
    otherwise. *)
Theorem export_logs_upload_outcome (data : value) (req : Request) :
  Fetch req ∈ (run (export this w data)).2 ->
  (run (export this w data)).1 = Normal tt /\
  last (run (export this w data)).2
  = Some match fetch w req with
         | Throw err =>
             LogError [LVal (VStr "Failed to post photos to Tumblr:");
                       if String.eqb (err_message err) EmptyString
                       then LErr err else LVal (VStr (err_message err))]
         | Normal response =>
             match json response with
             | Throw parseErr =>
                 LogError [LVal (VStr "Failed to post photos to Tumblr:");
                           LVal (VStr ("Tumblr response is not valid JSON: "
                                         ++ error_toString parseErr))]
             | Normal parsed =>
                 if ok response
                 then LogInfo [LVal (VStr "Posted to Tumblr successfully:"); LVal parsed]
                 else LogError [LVal (VStr "Failed to post photos to Tumblr:");
                                LVal (VStr ("Tumblr API error (status="
                                              ++ Number_toString (status response)
                                              ++ "): " ++ JSON_stringify parsed))]
             end
         end.
Proof.
  intros Hin.
  destruct (export_fetches data req Hin) as (files & joined & message & _ & _ & _ & _ & _ & ->).
  cbn [fst snd]. split; [reflexivity|]. cbn [last]. f_equal.
  unfold outcome_line, failed_to_post, message_or_error, posted.
  destruct (fetch w req) as [response|err]; [reflexivity|].
  simpl. destruct (String.eqb (err_message err) EmptyString); reflexivity.
Qed.


End Outcomes.

(** ** The exception that leaves [export] *)

Section Escapes.
Context `{Runtime}.
Variables (this : Plugin) (w : World).

(** X5. An exception that leaves [export] is a [TypeError], and the hook has
    then logged the received payload and nothing else. It is either the
    exception of the extraction loop, on a payload with an item that is
    [null] or [undefined] or has such an entry in its [photo] list, or the
    exception of converting the blog name to a string for the "Posting" line,
    when the extraction went through and found a photo to post. Nothing the
    network or the uploader does leaves [export] as an exception. *)
Theorem export_escapes_only_TypeError (data : value) (e : js_error) :
  (run (export this w data)).1 = Throw e ->
  err_name e = "TypeError" /\
  (run (export this w data)).2 = [received data] /\
  ((existsb node_throws (items data) = true /\
    graph_loop w (items data) [] [] = Throw e) \/
   (existsb node_throws (items data) = false /\
    existing_photo_paths w data <> [] /\
    ToString (blogName this) = Throw e)).
Proof.
  intros Hrun.
  destruct (payload_cases w data)
    as [Hnil | [[Hne Hthrows] | [(Hne & Hok & Hnone) | (Hne & Hok & Hps)]]].
  - rewrite (export_no_items this w data Hnil) in Hrun. discriminate.
  - destruct (graph_loop_throws w _ [] [] Hthrows) as [e' He'].
    rewrite (export_extraction_throws this w data e' Hne He') in Hrun |- *.
    cbn [fst snd] in Hrun |- *. injection Hrun as ->.
    split; [exact (graph_loop_TypeError _ _ _ _ _ He')|]. split; [reflexivity|].
    left. split; [exact Hthrows | exact He'].
  - pose proof (graph_loop_collects w data Hok) as Hg. rewrite Hnone in Hg.
    rewrite (export_no_photos this w data _ Hne Hg) in Hrun. discriminate.
  - destruct (upload_cases this (existing_photo_paths w data) (collected_tags data))
      as [(e' & Hn & Hm) | [(message & url & e' & Hm & Hu & Hj)
                           | (message & url & joined & Hm & Hu & Hj)]].
    + rewrite (export_name_throws this w data e' Hne Hok Hps Hm) in Hrun |- *.
      cbn [fst snd] in Hrun |- *. injection Hrun as ->.
      split; [exact (ToString_TypeError _ _ Hn)|]. split; [reflexivity|].
      right. split; [exact Hok|]. split; [exact Hps | exact Hn].
    + rewrite (export_join_throws this w data message url e' Hne Hok Hps Hm Hu Hj) in Hrun.
      discriminate.
    + destruct (export_upload_run this w data message url joined Hne Hok Hps Hm Hu Hj)
        as (files & _ & Hrun').
      rewrite Hrun' in Hrun. discriminate.
Qed.

(** X9. Of the payload, [export] reads the item graph and nothing else: two
    payloads with the same items give the same result and, after the first
    log line (which shows the payload), the same events. *)
Theorem export_reads_only_items (data1 data2 : value) :
  items data1 = items data2 ->
  (run (export this w data1)).1 = (run (export this w data2)).1 /\
  tail (run (export this w data1)).2 = tail (run (export this w data2)).2.
Proof.
  intros Heq.
  assert (Hpaths : existing_photo_paths w data1 = existing_photo_paths w data2).
  { unfold existing_photo_paths, photo_entries. rewrite Heq. reflexivity. }
  assert (Htags : collected_tags data1 = collected_tags data2).
  { unfold collected_tags, tag_entries. rewrite Heq. reflexivity. }
  destruct (payload_cases w data1)
    as [Hnil | [[Hne Hthrows] | [(Hne & Hok & Hnone) | (Hne & Hok & Hps)]]].
  - rewrite (export_no_items this w data1 Hnil).
    rewrite Heq in Hnil. rewrite (export_no_items this w data2 Hnil). split; reflexivity.
  - destruct (graph_loop_throws w _ [] [] Hthrows) as [e He].
    rewrite (export_extraction_throws this w data1 e Hne He).
    rewrite Heq in Hne, He.
    rewrite (export_extraction_throws this w data2 e Hne He). split; reflexivity.
  - pose proof (graph_loop_collects w data1 Hok) as Hg. rewrite Hnone in Hg.
    rewrite (export_no_photos this w data1 _ Hne Hg).
    rewrite Heq in Hne, Hg.
    rewrite (export_no_photos this w data2 _ Hne Hg). split; reflexivity.
  - pose proof (graph_loop_collects w data1 Hok) as Hg.
    destruct (posting_message this (existing_photo_paths w data1)) as [message|e] eqn:Hm.
    + rewrite (export_uploads this w data1 _ _ _ Hne Hg Hps Hm).
      rewrite Heq in Hne, Hg.
      rewrite (export_uploads this w data2 _ _ _ Hne Hg Hps Hm). split; reflexivity.
    + rewrite (export_message_throws this w data1 _ _ e Hne Hg Hps Hm).
      rewrite Heq in Hne, Hg.
      rewrite (export_message_throws this w data2 _ _ e Hne Hg Hps Hm). split; reflexivity.
Qed.

End Escapes.

(** ** The order of the tags *)

Lemma tags_loop_sublist (tags s : list value) :
  exists k, fold_left set_add tags s = (s ++ k)%list /\ k `sublist_of` tags.
Proof.
  revert s. induction tags as [|t ts IH]; intros s; simpl.
  - exists []. rewrite app_nil_r. split; [reflexivity | constructor].
  - destruct (IH (set_add s t)) as (k & -> & Hk). unfold set_add.
    destruct (set_has s t).
    + exists k. split; [reflexivity | apply sublist_cons; exact Hk].
    + exists (t :: k). rewrite <- app_assoc. split; [reflexivity|].
      apply sublist_skip. exact Hk.
Qed.

Lemma tags_loop_distinct (tags s : list value) :
  NoDup (s ++ tags) -> fold_left set_add tags s = (s ++ tags)%list.
Proof.
  revert s. induction tags as [|t ts IH]; intros s Hnd; simpl.
  - rewrite app_nil_r. reflexivity.
  - assert (Hfresh : set_has s t = false).
    { destruct (set_has s t) eqn:Hhas; [|reflexivity].
      apply set_has_elem in Hhas. apply NoDup_app in Hnd as (_ & Hdisj & _).
      exfalso. apply (Hdisj t Hhas). left. }
    unfold set_add. rewrite Hfresh. rewrite IH; rewrite <- app_assoc; [reflexivity|].
    exact Hnd.
Qed.

Section TagOrder.
Context `{Runtime}.
Variables (this : Plugin) (w : World).

(** X6. The tags handed to the uploader keep the order of the payload: they
    are the tag entries of the items, read item by item, with some entries
    left out and none moved. *)
Theorem export_tags_in_payload_order (data : value) (P : list value) (c : string)
    (T : list value) :
  CallUploader P c T ∈ (run (export this w data)).2 ->
  T `sublist_of` tag_entries data.
Proof.
  intros Hin. destruct (export_calls this w data P c T Hin) as (_ & _ & _ & _ & _ & ->).
  unfold collected_tags.
  destruct (tags_loop_sublist (tag_entries data) []) as (k & -> & Hk). exact Hk.
Qed.

(** X7. When no tag entry occurs twice in the payload, the tags handed to
    the uploader are the tag entries as they are, all of them and in the
    same order. *)
Theorem export_distinct_tags_unchanged (data : value) (P : list value) (c : string)
    (T : list value) :
  CallUploader P c T ∈ (run (export this w data)).2 ->
  NoDup (tag_entries data) ->
  T = tag_entries data.
Proof.
  intros Hin Hnd. destruct (export_calls this w data P c T Hin) as (_ & _ & _ & _ & _ & ->).
  unfold collected_tags. apply (tags_loop_distinct _ []). exact Hnd.
Qed.

End TagOrder.

(** ** The loop over a graph in two parts *)

Section Composition.
Context `{Runtime}.
Variable w : World.

(** X13. Extracting from a graph made of two parts is extracting from the
    first part and then, from the paths and tags that gave, from the second;
    an exception in the first part stops the whole, and the second part
    cannot undo what the first collected. *)
Theorem graph_loop_app (nodes1 nodes2 photoPaths allTags : list value) :
  graph_loop w (nodes1 ++ nodes2) photoPaths allTags
  = cbind (graph_loop w nodes1 photoPaths allTags)
      (fun collected => graph_loop w nodes2 collected.1 collected.2).
Proof.
  revert photoPaths allTags.
  induction nodes1 as [|node rest IH]; intros photoPaths allTags; [reflexivity|].
  cbn [app graph_loop].
  destruct (get_prop node "photo") as [photo|e]; [|reflexivity]. cbn [cbind].
  destruct (match photo with
            | VArr photos => photos_loop w photos photoPaths
            | _ => Normal photoPaths
            end) as [P|e]; [|reflexivity]. cbn [cbind].
  destruct (get_prop node "tag") as [tag|e]; [|reflexivity]. cbn [cbind].
  apply IH.
Qed.

End Composition.

(** ** Configuration and the request *)

Lemma spread_defaults_twice (opts : gmap string value) :
  spread defaults (spread defaults opts) = spread defaults opts.
Proof.
  unfold spread. apply map_eq. intros k. rewrite !lookup_union.
  destruct (opts !! k), (defaults !! k); reflexivity.
Qed.

Section Configuration.
Context `{Runtime}.

Lemma constructor_blogName (opts : gmap string value) (ctx : Context) :
  blogName (constructor opts ctx) = default (VStr "YOUR_BLOG_NAME") (opts !! "blogName").
Proof.
  unfold constructor, field, spread; cbn [blogName]. rewrite lookup_union.
  destruct (opts !! "blogName"); reflexivity.
Qed.

(** X8. Merging is idempotent: a plugin built from the merged options of a
    plugin is that plugin again, so the placeholders never override a value
    and a value once merged stays. *)
Theorem constructor_idempotent (opts : gmap string value) (ctx : Context) :
  constructor (options (constructor opts ctx)) ctx = constructor opts ctx.
Proof.
  unfold constructor. cbv zeta. cbn [options].
  rewrite !spread_defaults_twice. reflexivity.
Qed.

(** X11. In the headers of the request the form's [content-type] (multipart,
    with the boundary of the form) takes precedence over a header of that
    name from the OAuth library; every other header is the OAuth library's. *)
Theorem request_headers (this : Plugin) (w : World) (photoPaths : list value)
    (caption : string) (tags : list value) (req : Request) (k : string) :
  Fetch req ∈ (run (postPhotosToTumblr this w photoPaths caption tags)).2 ->
  req_headers req !! k
  = if String.eqb k "content-type"
    then Some ("multipart/form-data; boundary=" ++ boundary w)
    else oauthHeaders this w (req_url req) !! k.
Proof.
  intros Hin. destruct (postPhotosToTumblr_fetches this w _ _ _ _ Hin) as (_ & _ & Hreq).
  rewrite Hreq at 1. cbn [req_headers upload_request].
  unfold fetchHeaders, form_getHeaders. rewrite lookup_union.
  destruct (String.eqb k "content-type") eqn:Hk.
  - apply String.eqb_eq in Hk as ->. rewrite lookup_singleton_eq.
    destruct (oauthHeaders this w (req_url req) !! "content-type"); reflexivity.
  - apply String.eqb_neq in Hk. rewrite lookup_singleton_ne by congruence.
    destruct (oauthHeaders this w (req_url req) !! k); reflexivity.
Qed.

(** X12. Every request of an export of a freshly built plugin is a [POST]
    to the post endpoint of the blog the user named, and to that of the
    placeholder blog [YOUR_BLOG_NAME] when the options name no blog: the
    upload is attempted all the same. *)
Theorem export_request_endpoint (opts : gmap string value) (ctx : Context) (w : World)
    (data : value) (req : Request) :
  Fetch req ∈ (run (export (constructor opts ctx) w data)).2 ->
  exists name,
    ToString (default (VStr "YOUR_BLOG_NAME") (opts !! "blogName")) = Normal name /\
    req_method req = "POST" /\
    req_url req = "https://api.tumblr.com/v2/blog/" ++ name ++ ".tumblr.com/post".
Proof.
  intros Hin.
  destruct (export_fetches _ w data req Hin) as (files & joined & message & _ & _ & _ & Hu & Hreq & _).
  apply post_url_Normal in Hu as (name & Hn & Hurl). rewrite constructor_blogName in Hn.
  exists name. split; [exact Hn|]. split; [rewrite Hreq; reflexivity | exact Hurl].
Qed.

End Configuration.

(** ** What the payload alone decides *)

Lemma photos_loop_throws_anywhere (w1 w2 : World) (photos acc1 acc2 : list value)
    (e : js_error) :
  photos_loop w1 photos acc1 = Throw e -> photos_loop w2 photos acc2 = Throw e.
Proof.
  revert acc1 acc2. induction photos as [|p rest IH]; intros acc1 acc2; simpl;
    [discriminate|].
  destruct (get_prop p "path") as [path|e']; simpl; [apply IH | auto].
Qed.

Lemma photos_loop_returns_anywhere (w1 w2 : World) (photos acc1 acc2 P : list value) :
  photos_loop w1 photos acc1 = Normal P -> exists P', photos_loop w2 photos acc2 = Normal P'.
Proof.
  revert acc1 acc2. induction photos as [|p rest IH]; intros acc1 acc2; simpl; [eauto|].
  destruct (get_prop p "path") as [path|e']; simpl; [apply IH | discriminate].
Qed.

Lemma graph_loop_throws_anywhere (w1 w2 : World) (nodes P1 T1 P2 T2 : list value)
    (e : js_error) :
  graph_loop w1 nodes P1 T1 = Throw e -> graph_loop w2 nodes P2 T2 = Throw e.
Proof.
  revert P1 T1 P2 T2. induction nodes as [|node rest IH]; intros P1 T1 P2 T2; simpl;
    [discriminate|].
  destruct (get_prop node "photo") as [photo|e']; simpl; [|auto].
  assert (Htag : forall Q1 Q2,
             cbind (get_prop node "tag")
               (fun tag => graph_loop w1 rest Q1
                             match tag with VArr tags => tags_loop tags T1 | _ => T1 end)
             = Throw e ->
             cbind (get_prop node "tag")
               (fun tag => graph_loop w2 rest Q2
                             match tag with VArr tags => tags_loop tags T2 | _ => T2 end)
             = Throw e).
  { intros Q1 Q2. destruct (get_prop node "tag") as [tag|e']; simpl; [apply IH | auto]. }
  destruct photo as [| | | | |photos|]; simpl; try apply Htag.
  destruct (photos_loop w1 photos P1) as [Q1|e1] eqn:H1; simpl.
  - destruct (photos_loop_returns_anywhere w1 w2 photos P1 P2 Q1 H1) as [Q2 ->].
    simpl. apply Htag.
  - intros He. injection He as ->.
    rewrite (photos_loop_throws_anywhere w1 w2 photos P1 P2 e H1). reflexivity.
Qed.

Section PayloadOnly.
Context `{Runtime}.

(** X10. For a plugin whose blog name can be converted to a string, whether
    [export] throws, and what, is decided by the payload alone: a payload on
    which such a plugin throws in one world makes every plugin throw the same
    exception in every world, before anything but the payload is logged. *)
Theorem export_exception_by_payload (this1 this2 : Plugin) (w1 w2 : World)
    (data : value) (name : string) (e : js_error) :
  ToString (blogName this1) = Normal name ->
  (run (export this1 w1 data)).1 = Throw e ->
  run (export this2 w2 data) = (Throw e, [received data]).
Proof.
  intros Hname Hrun.
  destruct (payload_cases w1 data)
    as [Hnil | [[Hne Hthrows] | [(Hne & Hok & Hnone) | (Hne & Hok & Hps)]]].
  - rewrite (export_no_items this1 w1 data Hnil) in Hrun. discriminate.
  - destruct (graph_loop_throws w1 _ [] [] Hthrows) as [e' He'].
    rewrite (export_extraction_throws this1 w1 data e' Hne He') in Hrun.
    cbn [fst] in Hrun. injection Hrun as ->.
    apply export_extraction_throws; [exact Hne|].
    exact (graph_loop_throws_anywhere w1 w2 _ _ _ _ _ _ He').
  - pose proof (graph_loop_collects w1 data Hok) as Hg. rewrite Hnone in Hg.
    rewrite (export_no_photos this1 w1 data _ Hne Hg) in Hrun. discriminate.
  - destruct (upload_cases this1 (existing_photo_paths w1 data) (collected_tags data))
      as [(e' & Hn & _) | [(message & url & e' & Hm & Hu & Hj)
                          | (message & url & joined & Hm & Hu & Hj)]].
    + congruence.
    + rewrite (export_join_throws this1 w1 data message url e' Hne Hok Hps Hm Hu Hj) in Hrun.
      discriminate.
    + destruct (export_upload_run this1 w1 data message url joined Hne Hok Hps Hm Hu Hj)
        as (files & _ & Hrun').
      rewrite Hrun' in Hrun. discriminate.
Qed.

Variables (this : Plugin) (w : World).

Lemma collected_tags_nil (data : value) :
  collected_tags data = [] <-> tag_entries data = [].
Proof.
  unfold collected_tags. split.
  - intros Hnil. destruct (tag_entries data) as [|t ts] eqn:Ht; [reflexivity|].
    assert (Hin : t ∈ fold_left set_add (t :: ts) []).
    { apply tags_loop_elem. right. left. }
    rewrite Hnil in Hin. inversion Hin.
  - intros ->. reflexivity.
Qed.

(** X14. The request of an export has a [tags] field exactly when some item
    of the payload has a tag entry. *)
Theorem export_tags_field_iff (data : value) (req : Request) :
  Fetch req ∈ (run (export this w data)).2 ->
  (existsb (field_named "tags") (req_body req) = true <-> tag_entries data <> []).
Proof.
  intros Hin.
  destruct (export_fetches this w data req Hin) as (files & joined & message & _ & _ & _ & _ & -> & _).
  cbn [req_body upload_request]. rewrite form_of_tags, collected_tags_nil. reflexivity.
Qed.

(** X15. The number of photos the "Posting" log line announces is the
    number of binary parts of the request that follows it. *)
Theorem export_announces_parts (data : value) (req : Request) :
  Fetch req ∈ (run (export this w data)).2 ->
  exists (P T : list value) (name : string),
    ToString (blogName this) = Normal name /\
    ((run (export this w data)).2 !! 1%nat)
    = Some (LogInfo [LVal (VStr ("Posting " ++ Number_toString (Z.of_nat (length P))
                                   ++ " photo(s) to Tumblr blog " ++ double_quote
                                   ++ name ++ double_quote
                                   ++ " with tags:"));
                     LVal (VArr T)]) /\
    ((run (export this w data)).2 !! 3%nat) = Some (Fetch req) /\
    length P = length (filter (fun p => is_file p = true) (req_body req)).
Proof.
  intros Hin.
  destruct (export_fetches this w data req Hin)
    as (files & joined & message & Hfiles & _ & Hm & _ & Hreq & ->).
  apply posting_message_Normal in Hm as (name & Hn & ->).
  exists (existing_photo_paths w data), (collected_tags data), name.
  split; [exact Hn|]. split; [reflexivity|]. split; [reflexivity|].
  rewrite Hreq. cbn [req_body upload_request].
  rewrite form_of_files, length_map. exact (Forall2_length _ _ _ Hfiles).
Qed.

End PayloadOnly.

(** * Further runs on the simulated platform *)

(** A tag that cannot be converted to a string: the uploader is entered and
    throws before any request, and the hook logs the failure. *)
Example export_unprintable_tag :
  run (export plugin (world disk 201 (Normal accepted)) unprintable_tag)
  = (Normal tt,
     [received unprintable_tag;
      posting posting_one [VStr "a"; unprintable];
      CallUploader [VStr "/tmp/a.jpg"] EmptyString [VStr "a"; unprintable];
      LogError [LVal (VStr "Failed to post photos to Tumblr:");
                LVal (VStr "Cannot convert object to primitive value")]]).
Proof. vm_compute. reflexivity. Qed.

(** A blog name that cannot be converted to a string: the exception of the
    "Posting" line leaves [export]. *)
Example export_unprintable_blog_name :
  run (export unnamed_plugin (world disk 201 (Normal accepted)) one_photo)
  = (Throw (TypeError "Cannot convert object to primitive value"), [received one_photo]).
Proof. vm_compute. reflexivity. Qed.

Lemma export_request_body_witness :
  exists files joined,
    Forall2 (fun p f => p = VStr f /\ file_exists (world disk 201 (Normal accepted)) f = true)
      (existing_photo_paths (world disk 201 (Normal accepted)) tagged) files /\
    array_join "," (collected_tags tagged) = Normal joined /\
    [Field "type" "photo"; Field "caption" EmptyString;
     Field "tags" "a,b,c"; FilePart "data[]" "/tmp/a.jpg"]
    = ([Field "type" "photo"; Field "caption" EmptyString]
         ++ tags_field (collected_tags tagged) joined
         ++ map (FilePart "data[]") files)%list /\
    1%nat = length (existing_photo_paths (world disk 201 (Normal accepted)) tagged).
Proof.
  apply (export_request_body plugin (world disk 201 (Normal accepted)) tagged
           (request (world disk 201 (Normal accepted))
              [Field "type" "photo"; Field "caption" EmptyString;
               Field "tags" "a,b,c"; FilePart "data[]" "/tmp/a.jpg"])).
  vm_compute. do 3 apply list_elem_of_further. apply list_elem_of_here.
Defined.

Lemma export_logs_upload_outcome_witness :
  (run (export plugin (world disk 401 (Normal rejected)) one_photo)).1 = Normal tt /\
  last (run (export plugin (world disk 401 (Normal rejected)) one_photo)).2
  = Some (LogError [LVal (VStr "Failed to post photos to Tumblr:");
                    LVal (VStr ("Tumblr API error (status=" ++ "401" ++ "): "
                                  ++ JSON_stringify rejected))]).
Proof.
  apply (export_logs_upload_outcome plugin (world disk 401 (Normal rejected)) one_photo
           (request (world disk 401 (Normal rejected))
              [Field "type" "photo"; Field "caption" EmptyString;
               FilePart "data[]" "/tmp/a.jpg"])).
  vm_compute. do 3 apply list_elem_of_further. apply list_elem_of_here.
Defined.


Lemma export_escapes_only_TypeError_witness :
  err_name (TypeError "Cannot convert object to primitive value") = "TypeError" /\
  (run (export unnamed_plugin (world disk 201 (Normal accepted)) one_photo)).2
  = [received one_photo] /\
  ((existsb node_throws (items one_photo) = true /\
    graph_loop (world disk 201 (Normal accepted)) (items one_photo) [] []
    = Throw (TypeError "Cannot convert object to primitive value")) \/
   (existsb node_throws (items one_photo) = false /\
    existing_photo_paths (world disk 201 (Normal accepted)) one_photo <> [] /\
    ToString (blogName unnamed_plugin)
    = Throw (TypeError "Cannot convert object to primitive value"))).
Proof.
  apply (export_escapes_only_TypeError unnamed_plugin (world disk 201 (Normal accepted))
           one_photo).
  vm_compute. reflexivity.
Defined.

Lemma export_tags_in_payload_order_witness :
  [VStr "a"; VStr "b"; VStr "c"] `sublist_of` tag_entries tagged.
Proof.
  apply (export_tags_in_payload_order plugin (world disk 201 (Normal accepted)) tagged
           [VStr "/tmp/a.jpg"] EmptyString).
  vm_compute. do 2 apply list_elem_of_further. apply list_elem_of_here.
Defined.

Lemma export_distinct_tags_unchanged_witness :
  [VStr "harbour"; VStr "1923"] = tag_entries two_tags.
Proof.
  apply (export_distinct_tags_unchanged plugin (world disk 201 (Normal accepted)) two_tags
           [VStr "/tmp/b.jpg"] EmptyString).
  - vm_compute. do 2 apply list_elem_of_further. apply list_elem_of_here.
  - change (tag_entries two_tags) with [VStr "harbour"; VStr "1923"].
    apply NoDup_cons. split; [|apply NoDup_singleton].
    intros Hin. apply list_elem_of_singleton in Hin. discriminate.
Defined.

Lemma export_reads_only_items_witness :
  (run (export plugin (world disk 201 (Normal accepted)) one_photo)).1
  = (run (export plugin (world disk 201 (Normal accepted)) one_photo_versioned)).1 /\
  tail (run (export plugin (world disk 201 (Normal accepted)) one_photo)).2
  = tail (run (export plugin (world disk 201 (Normal accepted)) one_photo_versioned)).2.
Proof.
  apply (export_reads_only_items plugin (world disk 201 (Normal accepted))
           one_photo one_photo_versioned).
  vm_compute. reflexivity.
Defined.

Lemma export_exception_by_payload_witness :
  run (export unnamed_plugin (offline []) null_photo)
  = (Throw (TypeError "Cannot read properties of null (reading 'path')"),
     [received null_photo]).
Proof.
  apply (export_exception_by_payload plugin unnamed_plugin
           (world disk 201 (Normal accepted)) (offline []) null_photo "archive").
  - vm_compute. reflexivity.
  - vm_compute. reflexivity.
Defined.

Lemma request_headers_witness :
  req_headers (request (world disk 201 (Normal accepted))
                 [Field "type" "photo"; Field "caption" EmptyString;
                  FilePart "data[]" "/tmp/a.jpg"]) !! "content-type"
  = Some ("multipart/form-data; boundary="
            ++ boundary (world disk 201 (Normal accepted))).
Proof.
  apply (request_headers plugin (world disk 201 (Normal accepted))
           [VStr "/tmp/a.jpg"] EmptyString []
           (request (world disk 201 (Normal accepted))
              [Field "type" "photo"; Field "caption" EmptyString;
               FilePart "data[]" "/tmp/a.jpg"]) "content-type").
  vm_compute. apply list_elem_of_further, list_elem_of_here.
Defined.

Lemma export_request_endpoint_witness :
  exists name,
    ToString (default (VStr "YOUR_BLOG_NAME") ((∅ : gmap string value) !! "blogName"))
    = Normal name /\
    req_method (upload_request (constructor ∅ ctx) (world disk 201 (Normal accepted))
                  "https://api.tumblr.com/v2/blog/YOUR_BLOG_NAME.tumblr.com/post"
                  [Field "type" "photo"; Field "caption" EmptyString;
                   FilePart "data[]" "/tmp/a.jpg"]) = "POST" /\
    req_url (upload_request (constructor ∅ ctx) (world disk 201 (Normal accepted))
               "https://api.tumblr.com/v2/blog/YOUR_BLOG_NAME.tumblr.com/post"
               [Field "type" "photo"; Field "caption" EmptyString;
                FilePart "data[]" "/tmp/a.jpg"])
    = "https://api.tumblr.com/v2/blog/" ++ name ++ ".tumblr.com/post".
Proof.
  apply (export_request_endpoint ∅ ctx (world disk 201 (Normal accepted)) one_photo).
  vm_compute. do 3 apply list_elem_of_further. apply list_elem_of_here.
Defined.

Lemma export_tags_field_iff_witness :
  existsb (field_named "tags")
    (req_body (request (world disk 201 (Normal accepted))
                 [Field "type" "photo"; Field "caption" EmptyString;
                  FilePart "data[]" "/tmp/a.jpg"])) = true
  <-> tag_entries one_photo <> [].
Proof.
  apply (export_tags_field_iff plugin (world disk 201 (Normal accepted)) one_photo).
  vm_compute. do 3 apply list_elem_of_further. apply list_elem_of_here.
Defined.

Lemma export_announces_parts_witness :
  exists (P T : list value) (name : string),
    ToString (blogName plugin) = Normal name /\
    ((run (export plugin (world disk 201 (Normal accepted)) tagged)).2 !! 1%nat)
    = Some (LogInfo [LVal (VStr ("Posting " ++ Number_toString (Z.of_nat (length P))
                                   ++ " photo(s) to Tumblr blog " ++ double_quote
                                   ++ name ++ double_quote
                                   ++ " with tags:"));
                     LVal (VArr T)]) /\
    ((run (export plugin (world disk 201 (Normal accepted)) tagged)).2 !! 3%nat)
    = Some (Fetch (request (world disk 201 (Normal accepted))
                     [Field "type" "photo"; Field "caption" EmptyString;
                      Field "tags" "a,b,c"; FilePart "data[]" "/tmp/a.jpg"])) /\
    length P = 1%nat.
Proof.
  apply (export_announces_parts plugin (world disk 201 (Normal accepted)) tagged
           (request (world disk 201 (Normal accepted))
              [Field "type" "photo"; Field "caption" EmptyString;
               Field "tags" "a,b,c"; FilePart "data[]" "/tmp/a.jpg"])).
  vm_compute. do 3 apply list_elem_of_further. apply list_elem_of_here.
Defined.
